(** * gitBrowser: file history across renames and the diff fallback

    A shallow embedding of the parts of [git/git.go] and [main.go] that
    resolve a file's history across renames, fetch a per-file diff with a
    fallback to the historical file name, and normalise request paths.

    Go strings are byte sequences; they are modelled by [string], whose
    characters are the 8-bit [ascii] values.  The external [git] binary is a
    parameter of the development: a function from the working directory and
    the argument vector to what the process produced.  Every function that
    runs the tool lives in a small monad that records the invocations. *)

From Stdlib Require Import String Ascii List Bool Arith Lia.
Import ListNotations.
Open Scope string_scope.
Open Scope nat_scope.

(** ** Characters the source writes as escapes *)

Definition TAB : ascii := "009"%char.
Definition NL : ascii := "010"%char.
Definition PIPE : ascii := "|"%char.
Definition SLASH : ascii := "/"%char.

(** ** The functions of Go's [strings] package used by the source *)

Module strings.

(** [strings.HasPrefix(s, prefix)]. *)
Fixpoint HasPrefix (s prefix : string) : bool :=
  match prefix, s with
  | EmptyString, _ => true
  | String _ _, EmptyString => false
  | String p prefix', String c s' => Ascii.eqb c p && HasPrefix s' prefix'
  end.

(** [drop n s] is the Go slice [s[n:]]. *)
Fixpoint drop (n : nat) (s : string) : string :=
  match n, s with
  | O, _ => s
  | S _, EmptyString => EmptyString
  | S n', String _ s' => drop n' s'
  end.

(** [strings.TrimPrefix(s, prefix)]: [s] without the prefix when it has it,
    [s] otherwise. *)
Definition TrimPrefix (s prefix : string) : string :=
  if HasPrefix s prefix then drop (String.length prefix) s else s.

(** [strings.Split(s, sep)] for a separator of one byte, the only way the
    source calls it: the pieces between the separators, one more than there
    are separators, so that the empty string splits into one empty piece. *)
Fixpoint Split (s : string) (sep : ascii) : list string :=
  match s with
  | EmptyString => [EmptyString]
  | String c s' =>
      if Ascii.eqb c sep then EmptyString :: Split s' sep
      else match Split s' sep with
           | piece :: pieces => String c piece :: pieces
           | [] => [String c EmptyString]
           end
  end.

(** [strings.Join(elems, sep)]. *)
Fixpoint Join (elems : list string) (sep : string) : string :=
  match elems with
  | [] => EmptyString
  | [e] => e
  | e :: rest => e ++ sep ++ Join rest sep
  end.

(** [code c] is the value of the byte [c]. *)
Definition code (c : ascii) : nat := nat_of_ascii c.

(** The table [asciiSpace] of the Go library: tab, line feed, vertical tab,
    form feed, carriage return and space. *)
Definition asciiSpace (c : ascii) : bool :=
  ((9 <=? code c) && (code c <=? 13)) || (code c =? 32).

(** The white space of [unicode.IsSpace] beyond the ASCII table, by its
    UTF-8 encoding.  Two bytes: U+0085 and U+00A0. *)
Definition space2 (b1 b2 : ascii) : bool :=
  (code b1 =? 194) && ((code b2 =? 133) || (code b2 =? 160)).

(** Three bytes: U+1680, U+2000 to U+200A, U+2028, U+2029, U+202F, U+205F
    and U+3000. *)
Definition space3 (b1 b2 b3 : ascii) : bool :=
  ((code b1 =? 225) && (code b2 =? 154) && (code b3 =? 128))
  || ((code b1 =? 226) && (code b2 =? 128)
      && (((128 <=? code b3) && (code b3 <=? 138))
          || (code b3 =? 168) || (code b3 =? 169) || (code b3 =? 175)))
  || ((code b1 =? 226) && (code b2 =? 129) && (code b3 =? 159))
  || ((code b1 =? 227) && (code b2 =? 128) && (code b3 =? 128)).

(** Leading white space removed, one rune at a time.  With [fwd = false] the
    argument is a reversed string and the bytes of a rune arrive last byte
    first. *)
Fixpoint trimLeading (fwd : bool) (s : string) : string :=
  match s with
  | EmptyString => EmptyString
  | String c1 r1 =>
      if asciiSpace c1 then trimLeading fwd r1
      else
        match r1 with
        | EmptyString => s
        | String c2 r2 =>
            if (if fwd then space2 c1 c2 else space2 c2 c1) then trimLeading fwd r2
            else
              match r2 with
              | EmptyString => s
              | String c3 r3 =>
                  if (if fwd then space3 c1 c2 c3 else space3 c3 c2 c1)
                  then trimLeading fwd r3
                  else s
              end
        end
  end.

Definition reverse (s : string) : string :=
  string_of_list_ascii (rev (list_ascii_of_string s)).

(** [strings.TrimSpace(s)]: leading white space is cut first, trailing white
    space of what is left second. *)
Definition TrimSpace (s : string) : string :=
  reverse (trimLeading false (reverse (trimLeading true s))).

End strings.

(** ** The functions of Go's [path/filepath] package used by the source

    The program runs on Unix (see the Dockerfile): the separator is the
    slash and there are no volume names. *)

Module filepath.

(** [filepath.ToSlash] is the identity where the separator is the slash. *)
Definition ToSlash (p : string) : string := p.

(** The loop of [filepath.Clean], element by element.  [out] holds the
    elements written so far, last one first.  Empty elements and [.] are
    dropped; [..] removes the last element written when there is one that is
    not itself a kept [..], is kept when the path is not rooted, and is
    dropped at the root. *)
Fixpoint cleanElems (rooted : bool) (elems out : list string) : list string :=
  match elems with
  | [] => out
  | e :: rest =>
      if String.eqb e "" then cleanElems rooted rest out
      else if String.eqb e "." then cleanElems rooted rest out
      else if String.eqb e ".." then
        match out with
        | top :: out' =>
            if String.eqb top ".." then cleanElems rooted rest (".." :: out)
            else cleanElems rooted rest out'
        | [] =>
            if rooted then cleanElems rooted rest []
            else cleanElems rooted rest [".."]
        end
      else cleanElems rooted rest (e :: out)
  end.

(** [filepath.Clean(path)]. *)
Definition Clean (path : string) : string :=
  if String.eqb path "" then "."
  else
    let rooted := strings.HasPrefix path "/" in
    let body := strings.Join (rev (cleanElems rooted (strings.Split path SLASH) [])) "/" in
    if rooted then "/" ++ body
    else if String.eqb body "" then "." else body.

End filepath.

(** ** Results and the invocation log *)

(** A Go [error] is kept by its message. *)
Definition error : Type := string.

(** A Go return pair [(T, error)] whose first component is the zero value
    whenever the error is not nil. *)
Inductive result (A : Type) : Type :=
| Ok (value : A)
| Err (err : error).

Arguments Ok {A} value.
Arguments Err {A} err.

(** What one run of the external tool produced: the error of [cmd.Run]
    (nil when the exit status is zero) and the two captured streams. *)
Record ExecResult : Type := mkExec {
  run_err : option error;
  stdout : string;
  stderr : string
}.

(** One invocation: the working directory and the arguments after [git]. *)
Definition Invocation : Type := (string * list string)%type.

(** Computations that run the tool: the log of invocations made so far goes
    in, the value and the extended log come out. *)
Definition Git (A : Type) : Type := list Invocation -> A * list Invocation.

Definition ret {A : Type} (a : A) : Git A := fun log => (a, log).

Definition bind {A B : Type} (c : Git A) (k : A -> Git B) : Git B :=
  fun log => let (a, log') := c log in k a log'.

Notation "x <- c ;; k" := (bind c (fun x => k))
  (at level 61, c at next level, right associativity).

(** The value of a computation started with an empty log, and the
    invocations it makes. *)
Definition value {A : Type} (c : Git A) : A := fst (c []).
Definition calls {A : Type} (c : Git A) : list Invocation := snd (c []).

(** ** Package [git] *)

Module git.

(** [LogEntry] represents a single commit log entry. *)
Record LogEntry : Type := mkLogEntry {
  Hash : string;
  Author : string;
  Date : string;
  Subject : string
}.

(** [FileHistoryEntry] represents one history item for a file, including the
    path at that commit.  [Log] is the embedded [LogEntry]. *)
Record FileHistoryEntry : Type := mkFileHistoryEntry {
  Log : LogEntry;
  Path : string
}.

Definition withPath (e : FileHistoryEntry) (p : string) : FileHistoryEntry :=
  {| Log := Log e; Path := p |}.

(** *** The commit log parser of [GetLog] *)

(** One turn of the loop over the lines: a line of exactly four fields
    appends an entry, any other line appends nothing. *)
Definition logStep (entries : list LogEntry) (line : string) : list LogEntry :=
  match strings.Split line PIPE with
  | [h; a; d; s] =>
      (entries ++ [{| Hash := h; Author := a; Date := d; Subject := s |}])%list
  | _ => entries
  end.

Definition parseLog (lines : list string) : list LogEntry :=
  fold_left logStep lines [].

(** *** The file history parser of [GetFileHistory] *)

(** The variables of the loop: the entries appended so far, the pending
    entry [current] (nil when there is none), the cursor [currentPath] and
    the name [nextPath] the cursor takes at the next flush. *)
Record HistoryState : Type := mkState {
  entries : list FileHistoryEntry;
  current : option FileHistoryEntry;
  currentPath : string;
  nextPath : string
}.

Definition initState (path : string) : HistoryState :=
  {| entries := []; current := None; currentPath := path; nextPath := "" |}.

(** The closure [flush]. *)
Definition flush (st : HistoryState) : HistoryState :=
  match current st with
  | None => st
  | Some cur =>
      let cur := if String.eqb (Path cur) "" then withPath cur (currentPath st) else cur in
      {| entries := (entries st ++ [cur])%list;
         current := None;
         currentPath := if String.eqb (nextPath st) "" then currentPath st else nextPath st;
         nextPath := "" |}
  end.

(** The body of the loop for one line. *)
Definition step (st : HistoryState) (line : string) : HistoryState :=
  if strings.HasPrefix line "__GB__" then
    let st := flush st in
    match strings.Split (strings.TrimPrefix line "__GB__") PIPE with
    | [h; a; d; s] =>
        {| entries := entries st;
           current := Some {| Log := {| Hash := h; Author := a; Date := d; Subject := s |};
                              Path := currentPath st |};
           currentPath := currentPath st;
           nextPath := nextPath st |}
    | _ => st
    end
  else
    match current st with
    | None => st
    | Some cur =>
        if String.eqb (strings.TrimSpace line) "" then st
        else
          let parts := strings.Split line TAB in
          if length parts <? 2 then st
          else
            let status := nth 0 parts "" in
            if strings.HasPrefix status "R" && (3 <=? length parts) then
              let oldPath := nth 1 parts "" in
              let newPath := nth 2 parts "" in
              if String.eqb newPath (currentPath st) then
                {| entries := entries st;
                   current := Some (withPath cur newPath);
                   currentPath := currentPath st;
                   nextPath := oldPath |}
              else st
            else
              let filePath := nth 1 parts "" in
              if String.eqb filePath (currentPath st) then
                {| entries := entries st;
                   current := Some (withPath cur filePath);
                   currentPath := currentPath st;
                   nextPath := nextPath st |}
              else st
    end.

(** The loop from a given state, the last flush and the result. *)
Definition runFrom (st : HistoryState) (lines : list string) : HistoryState :=
  fold_left step lines st.

Definition parseFileHistory (path : string) (lines : list string)
  : list FileHistoryEntry :=
  entries (flush (runFrom (initState path) lines)).

(** *** The functions that run the tool *)

Section Tool.

(** The [git] binary. *)
Variable exec : string -> list string -> ExecResult.

(** What [Command] returns for a finished process: on failure the error,
    with the trimmed standard error attached when there is any; on success
    the trimmed standard output. *)
Definition outcome (r : ExecResult) : result string :=
  match run_err r with
  | Some err =>
      if 0 <? String.length (stderr r)
      then Err (err ++ ": " ++ strings.TrimSpace (stderr r))%string
      else Err err
  | None => Ok (strings.TrimSpace (stdout r))
  end.

(** [Command] runs a native git command in the target repository and
    returns the output as a string. *)
Definition Command (repoPath : string) (args : list string) : Git (result string) :=
  fun log => (outcome (exec repoPath args), (log ++ [(repoPath, args)])%list).

Definition logArgs (rev : string) : list string :=
  ["log"; rev; "--pretty=format:%H|%an|%ad|%s"; "--date=short"; "-n"; "20"].

(** [GetLog] returns the commit history of the repository. *)
Definition GetLog (repoPath rev : string) : Git (result (list LogEntry)) :=
  let rev := if String.eqb rev "" then "HEAD" else rev in
  r <- Command repoPath (logArgs rev) ;;
  match r with
  | Err err => ret (Err err)
  | Ok out =>
      if String.eqb out "" then ret (Ok [])
      else ret (Ok (parseLog (strings.Split out NL)))
  end.

(** [GetFileContent] returns the content of a file at a specific revision
    and path. *)
Definition GetFileContent (repoPath rev path : string) : Git (result string) :=
  let rev := if String.eqb rev "" then "HEAD" else rev in
  Command repoPath ["show"; (rev ++ ":" ++ path)%string].

(** [GetBranches] returns a list of all local branches. *)
Definition GetBranches (repoPath : string) : Git (result (list string)) :=
  r <- Command repoPath ["branch"; "--format=%(refname:short)"] ;;
  match r with
  | Err err => ret (Err err)
  | Ok out =>
      if String.eqb out "" then ret (Ok []) else ret (Ok (strings.Split out NL))
  end.

Definition fileHistoryArgs (rev path : string) : list string :=
  ["log"; rev; "--pretty=format:__GB__%H|%an|%ad|%s"; "--date=short";
   "-n"; "50"; "--follow"; "--name-status"; "--"; path].

(** [GetFileHistory] returns commit history for a single file. *)
Definition GetFileHistory (repoPath rev path : string)
  : Git (result (list FileHistoryEntry)) :=
  let rev := if String.eqb rev "" then "HEAD" else rev in
  let path := strings.TrimPrefix path "/" in
  r <- Command repoPath (fileHistoryArgs rev path) ;;
  match r with
  | Err err => ret (Err err)
  | Ok out =>
      if String.eqb out "" then ret (Ok [])
      else ret (Ok (parseFileHistory path (strings.Split out NL)))
  end.

(** [GetCommitFileDiff] returns diff for a single file in a specific
    commit. *)
Definition GetCommitFileDiff (repoPath hash path : string) : Git (result string) :=
  let path := strings.TrimPrefix path "/" in
  Command repoPath ["show"; hash; "--"; path].

(** [GetCurrentBranch] returns the name of the currently checked out
    branch. *)
Definition GetCurrentBranch (repoPath : string) : Git (result string) :=
  Command repoPath ["rev-parse"; "--abbrev-ref"; "HEAD"].

End Tool.

End git.

(** ** Package [main] *)

Module main.

Import git.

(** [normalizeRepoRelativePath(repoPath, requestedPath)]. *)
Definition normalizeRepoRelativePath (repoPath requestedPath : string)
  : string * bool :=
  let path := strings.TrimSpace requestedPath in
  let path := strings.TrimPrefix path "/" in
  if String.eqb path "" then ("", false)
  else
    let repoPath := filepath.ToSlash (filepath.Clean repoPath) in
    let withLeadingSlash := ("/" ++ path)%string in
    let path :=
      if strings.HasPrefix withLeadingSlash (repoPath ++ "/")
      then strings.TrimPrefix withLeadingSlash (repoPath ++ "/")
      else
        let repoPathNoLeadingSlash := strings.TrimPrefix repoPath "/" in
        if strings.HasPrefix path (repoPathNoLeadingSlash ++ "/")
        then strings.TrimPrefix path (repoPathNoLeadingSlash ++ "/")
        else path in
    let path := filepath.ToSlash (filepath.Clean path) in
    let path := strings.TrimPrefix path "./" in
    if String.eqb path "." || String.eqb path "" || strings.HasPrefix path "../"
    then ("", false)
    else (path, true).

Record baseViewData : Type := mkBase {
  Repo : string;
  Repos : list string;
  Rev : string;
  Branches : list string
}.

Record app : Type := mkApp {
  repos : list (string * string);
  repoNames : list string;
  defaultRepo : string
}.

(** What a handler writes: a 404, a 500 with the error text, or a template
    with its data. *)
Inductive Response : Type :=
| NotFound
| InternalServerError (msg : string)
| BlobPage (base : baseViewData) (path : string) (lines : list string)
| FileHistoryPage (base : baseViewData) (path : string)
    (commits : list FileHistoryEntry)
| CommitPage (base : baseViewData) (hash diff path : string).

(** The map [a.repos], whose keys [loadApp] keeps distinct. *)
Fixpoint lookupRepo (rs : list (string * string)) (name : string) : option string :=
  match rs with
  | [] => None
  | (n, p) :: rest => if String.eqb n name then Some p else lookupRepo rest name
  end.

Section Tool.

Variable exec : string -> list string -> ExecResult.

(** The scan over the history in [fileDiffHandler]: the first entry of the
    target commit recorded under another path is retried, and the scan
    stops there whether the retry succeeds or not. *)
Fixpoint retryWithHistory (repoPath hash normalizedPath diff : string)
  (history : list FileHistoryEntry) : Git (string * string) :=
  match history with
  | [] => ret (diff, normalizedPath)
  | entry :: rest =>
      if String.eqb (Hash (Log entry)) hash
         && negb (String.eqb (Path entry) normalizedPath)
      then
        retry <- GetCommitFileDiff exec repoPath hash (Path entry) ;;
        match retry with
        | Ok retryDiff => ret (retryDiff, Path entry)
        | Err _ => ret (diff, normalizedPath)
        end
      else retryWithHistory repoPath hash normalizedPath diff rest
  end.

(** The path-at-commit resolver: the statements of [fileDiffHandler] from
    the first diff request to the end of the fallback.  The result is the
    error the handler answers with a 500, or the diff and the path it
    renders. *)
Definition resolveDiffWithFallback (repoPath hash normalizedPath : string)
  : Git (result (string * string)) :=
  r <- GetCommitFileDiff exec repoPath hash normalizedPath ;;
  match r with
  | Err err => ret (Err err)
  | Ok diff =>
      if String.eqb (strings.TrimSpace diff) "" then
        h <- GetFileHistory exec repoPath "HEAD" normalizedPath ;;
        match h with
        | Ok history =>
            dp <- retryWithHistory repoPath hash normalizedPath diff history ;;
            ret (Ok dp)
        | Err _ => ret (Ok (diff, normalizedPath))
        end
      else ret (Ok (diff, normalizedPath))
  end.

(** [baseData]: the branches, and none when listing them fails. *)
Definition baseData (a : app) (repoName repoPath rev : string) : Git baseViewData :=
  b <- GetBranches exec repoPath ;;
  ret {| Repo := repoName; Repos := repoNames a; Rev := rev;
         Branches := match b with Ok bs => bs | Err _ => [] end |}.

(** [blobHandler], from the URL parameters [repo], [rev] and [*]. *)
Definition blobHandler (a : app) (repoName rev path : string) : Git Response :=
  match lookupRepo (repos a) repoName with
  | None => ret NotFound
  | Some repoPath =>
      let (normalizedPath, ok) := normalizeRepoRelativePath repoPath path in
      if negb ok then ret NotFound
      else
        c <- GetFileContent exec repoPath rev normalizedPath ;;
        match c with
        | Err err => ret (InternalServerError err)
        | Ok content =>
            base <- baseData a repoName repoPath rev ;;
            ret (BlobPage base normalizedPath (strings.Split content NL))
        end
  end.

(** [fileHistoryHandler], from the URL parameters [repo], [rev] and [*]. *)
Definition fileHistoryHandler (a : app) (repoName rev path : string) : Git Response :=
  match lookupRepo (repos a) repoName with
  | None => ret NotFound
  | Some repoPath =>
      let (normalizedPath, pathOK) := normalizeRepoRelativePath repoPath path in
      if negb pathOK then ret NotFound
      else
        c <- GetFileHistory exec repoPath rev normalizedPath ;;
        match c with
        | Err err => ret (InternalServerError err)
        | Ok commits =>
            base <- baseData a repoName repoPath rev ;;
            ret (FileHistoryPage base normalizedPath commits)
        end
  end.

(** [fileDiffHandler], from the URL parameters [repo], [hash] and [*]. *)
Definition fileDiffHandler (a : app) (repoName hash path : string) : Git Response :=
  match lookupRepo (repos a) repoName with
  | None => ret NotFound
  | Some repoPath =>
      let (normalizedPath, pathOK) := normalizeRepoRelativePath repoPath path in
      if negb pathOK then ret NotFound
      else
        r <- resolveDiffWithFallback repoPath hash normalizedPath ;;
        match r with
        | Err err => ret (InternalServerError err)
        | Ok (diff, resolvedPath) =>
            b <- GetCurrentBranch exec repoPath ;;
            let rev := match b with Ok rev => rev | Err _ => "" end in
            base <- baseData a repoName repoPath rev ;;
            ret (CommitPage base hash diff resolvedPath)
        end
  end.

End Tool.

End main.

(** ** A scripted repository

    The repository of the tests: a file committed, modified, then moved
    into a new directory.  [scenarioGit] answers the invocations the code
    makes on it the way [git] does and fails on any other. *)

Module Scenario.

Import git.

Definition repo : string := "/repos/app1".
Definition oldPath : string := "a/f.kt".
Definition newPath : string := "b/a/f.kt".
Definition H1 : string := "1f0c5d8e9a7b4c3d2e1f0a9b8c7d6e5f4a3b2c1d".
Definition H2 : string := "2a7e4b9c0d1f3e5a6b8c7d9e0f1a2b3c4d5e6f70".
Definition H3 : string := "3c9d2e8f7a6b5c4d3e2f1a0b9c8d7e6f5a4b3c2d".

Definition line (s : string) : string := s ++ String NL "".
Definition tabbed (fields : list string) : string :=
  strings.Join fields (String TAB "").

(** The output of [git log --follow --name-status] for the new path: the
    record of the move, then the records of the older commits. *)
Definition moveMarker : string := "__GB__" ++ H3 ++ "|Test User|2024-03-03|v3".
Definition moveLine : string := tabbed ["R100"; oldPath; newPath].

Definition olderLines : list string :=
  [ "__GB__" ++ H2 ++ "|Test User|2024-03-02|v2";
    tabbed ["M"; oldPath];
    "";
    "__GB__" ++ H1 ++ "|Test User|2024-03-01|v1";
    tabbed ["A"; oldPath] ].

Definition historyLines : list string :=
  (moveMarker :: [moveLine; ""] ++ olderLines)%list.

Definition historyOutput : string :=
  line (strings.Join historyLines (String NL "")).

Definition diffH2 : string :=
  line ("commit " ++ H2)
  ++ line "diff --git a/a/f.kt b/a/f.kt"
  ++ line "-import android.net.Uri"
  ++ line "+import androidx.core.net.toUri".

Definition success (out : string) : ExecResult :=
  {| run_err := None; stdout := out; stderr := "" |}.

Definition failure (msg : string) : ExecResult :=
  {| run_err := Some "exit status 128"; stdout := ""; stderr := line msg |}.

Definition sameArgs (a b : list string) : bool :=
  if list_eq_dec string_dec a b then true else false.

Definition scenarioGit (dir : string) (args : list string) : ExecResult :=
  if negb (String.eqb dir repo) then failure "fatal: not a git repository"
  else if sameArgs args (fileHistoryArgs "HEAD" newPath) then success historyOutput
  else if sameArgs args ["show"; H2; "--"; newPath] then success ""
  else if sameArgs args ["show"; H2; "--"; oldPath] then success diffH2
  else if sameArgs args (logArgs "HEAD") then
    success (line (H3 ++ "|Test User|2024-03-03|v3")
             ++ line (H2 ++ "|Test User|2024-03-02|v2")
             ++ line (H1 ++ "|Test User|2024-03-01|v1"))
  else failure "fatal: bad revision".

(** The same repository with the history query failing. *)
Definition historyFailsGit (dir : string) (args : list string) : ExecResult :=
  if sameArgs args (fileHistoryArgs "HEAD" newPath)
  then failure "fatal: bad object HEAD"
  else scenarioGit dir args.

(** The same repository with the diff of the historical name failing. *)
Definition retryFailsGit (dir : string) (args : list string) : ExecResult :=
  if sameArgs args ["show"; H2; "--"; oldPath]
  then failure "fatal: bad object"
  else scenarioGit dir args.


(** A tool that answers every invocation with the given lines. *)
Definition answer (lines : list string) (dir : string) (args : list string)
  : ExecResult :=
  success (line (strings.Join lines (String NL ""))).

(** A commit log with a line that is not a record. *)
Definition brokenLog : list string :=
  [ H3 ++ "|Test User|2024-03-03|v3";
    "warning: a | in | the | subject | line";
    H2 ++ "|Test User|2024-03-02|v2" ].

(** A history whose second marker has lost a field. *)
Definition brokenMarkerHistory : list string :=
  [ moveMarker; moveLine; "";
    "__GB__" ++ H2 ++ "|Test User|v2"; tabbed ["M"; oldPath]; "";
    "__GB__" ++ H1 ++ "|Test User|2024-03-01|v1"; tabbed ["A"; oldPath] ].

(** A history with a status line of one field. *)
Definition brokenStatusHistory : list string :=
  [ moveMarker; "R100"; moveLine; "";
    "__GB__" ++ H2 ++ "|Test User|2024-03-02|v2"; tabbed ["M"; oldPath] ].

Definition theApp : main.app :=
  {| main.repos := [("app1", repo)]; main.repoNames := ["app1"];
     main.defaultRepo := "app1" |}.

End Scenario.

(** ** Vocabulary of the statements

    How the tool's output reads: which lines are commit markers, which
    status lines rename a file to a given name, and how many records an
    output holds. *)

Module Output.

Import git.

(** A commit-marker line carries the prefix the history query asks for. *)
Definition isMarker (line : string) : bool := strings.HasPrefix line "__GB__".

(** The log entry of a commit-marker line with exactly four fields. *)
Definition markerOf (line : string) : option LogEntry :=
  if isMarker line then
    match strings.Split (strings.TrimPrefix line "__GB__") PIPE with
    | [h; a; d; s] => Some {| Hash := h; Author := a; Date := d; Subject := s |}
    | _ => None
    end
  else None.

(** The log entries of the well-formed commit markers of an output, in the
    order of their lines. *)
Definition markers (lines : list string) : list LogEntry :=
  flat_map (fun l => match markerOf l with Some e => [e] | None => [] end) lines.

(** The list of what an option holds. *)
Definition optionList {A : Type} (o : option A) : list A :=
  match o with Some a => [a] | None => [] end.

(** The log entry of a line of the plain commit log. *)
Definition logEntryOf (line : string) : option LogEntry :=
  match strings.Split line PIPE with
  | [h; a; d; s] => Some {| Hash := h; Author := a; Date := d; Subject := s |}
  | _ => None
  end.

(** A status line that reports a rename to [p]: a status code that begins
    with [R], an old name and the new name [p]. *)
Definition renamesTo (p line : string) : bool :=
  let parts := strings.Split line TAB in
  strings.HasPrefix (nth 0 parts "") "R" && (3 <=? length parts)
  && String.eqb (nth 2 parts "") p.


(** The records of the plain commit log: its lines, none when the output
    is empty. *)
Definition logRecords (out : string) : nat :=
  if String.eqb out "" then 0 else length (strings.Split out NL).

(** The records of the file history output: its commit-marker lines. *)
Definition historyRecords (out : string) : nat :=
  length (filter isMarker (strings.Split out NL)).

(** The commit log entries accumulated and pending in a state. *)
Definition headers (st : HistoryState) : list LogEntry :=
  (map Log (entries st)
   ++ match current st with Some c => [Log c] | None => [] end)%list.


(** The state between two records: nothing pending, cursor [cp]. *)
Definition idle (es : list FileHistoryEntry) (cp : string) : HistoryState :=
  {| entries := es; current := None; currentPath := cp; nextPath := "" |}.

(** The state inside the record of the commit [hdr], read with cursor
    [cp]; [np] is the name the cursor takes when the record is flushed. *)
Definition pending (es : list FileHistoryEntry) (hdr : LogEntry) (cp np : string)
  : HistoryState :=
  {| entries := es;
     current := Some {| Log := hdr; Path := cp |};
     currentPath := cp;
     nextPath := np |}.

(** The states the loop goes through. *)
Inductive shaped : HistoryState -> Prop :=
| shaped_idle es cp : shaped (idle es cp)
| shaped_pending es hdr cp np : shaped (pending es hdr cp np).

(** The arguments of the history query for a revision and a path. *)
Definition historyQuery (rev path : string) : list string :=
  fileHistoryArgs (if String.eqb rev "" then "HEAD" else rev)
                  (strings.TrimPrefix path "/").

(** The arguments of the commit log query for a revision. *)
Definition logQuery (rev : string) : list string :=
  logArgs (if String.eqb rev "" then "HEAD" else rev).

(** The arguments of the diff query for a commit and a path. *)
Definition diffQuery (hash path : string) : list string :=
  ["show"; hash; "--"; strings.TrimPrefix path "/"].

(** The history read off what [Command] returned for the history query. *)
Definition historyOf (path : string) (r : result string)
  : result (list FileHistoryEntry) :=
  match r with
  | Err err => Err err
  | Ok out =>
      if String.eqb out "" then Ok []
      else Ok (parseFileHistory (strings.TrimPrefix path "/") (strings.Split out NL))
  end.

(** The commit log read off what [Command] returned for the log query. *)
Definition logOf (r : result string) : result (list LogEntry) :=
  match r with
  | Err err => Err err
  | Ok out =>
      if String.eqb out "" then Ok [] else Ok (parseLog (strings.Split out NL))
  end.

(** An entry of the target commit recorded under a name other than the
    requested one: what the scan of the fallback looks for. *)
Definition isHistorical (hash path : string) (e : FileHistoryEntry) : bool :=
  String.eqb (Hash (Log e)) hash && negb (String.eqb (Path e) path).

(** What follows a record: the end of the output or the marker of the next
    record. *)
Definition startsRecord (post : list string) : Prop :=
  match post with
  | [] => True
  | m :: _ => isMarker m = true
  end.


(** The first entry of a state, appended or pending, was read with cursor
    [p]; a state without one has cursor [p]. *)
Definition lead (p : string) (st : HistoryState) : Prop :=
  match entries st with
  | e :: _ => Path e = p
  | [] => currentPath st = p
  end.

(** The cursor is [p], has been since the start, and is not about to
    change. *)
Definition steady (p : string) (st : HistoryState) : Prop :=
  exists es,
    Forall (fun e => Path e = p) es
    /\ (st = idle es p \/ exists hdr, st = pending es hdr p "").

(** The values of the bytes that occur in the encoding of a white space
    rune outside ASCII. *)
Definition spaceCode (n : nat) : bool :=
  existsb (Nat.eqb n) [194; 133; 160; 225; 154; 226; 129; 159; 227; 168; 169; 175]
  || ((128 <=? n) && (n <=? 138)).

(** The bytes that occur in the encoding of some white space rune. *)
Definition spaceByte (c : ascii) : bool :=
  strings.asciiSpace c || spaceCode (strings.code c).

(** A cleaned path that leaves the repository root: the parent directory or
    something below it. *)
Definition escapesRoot (cleaned : string) : bool :=
  String.eqb cleaned ".." || strings.HasPrefix cleaned "../".

End Output.

(** ** The output as a sequence of records *)

Module Records.

Import git Output.

(** The lines of an output grouped at its marker lines: the lines before
    the first marker, then, for every marker line, the log entry it parses
    to (none when it has not four fields) with the lines that follow it up
    to the next marker. *)
Fixpoint group (lines : list string)
  : list string * list (option LogEntry * list string) :=
  match lines with
  | [] => ([], [])
  | l :: rest =>
      let (lead, rs) := group rest in
      if isMarker l then ([], (markerOf l, lead) :: rs) else (l :: lead, rs)
  end.

Definition records (lines : list string) : list (option LogEntry * list string) :=
  snd (group lines).

(** The name noted as the next cursor after one status line read with
    cursor [cp]: the old name of the line when it renames to [cp]. *)
Definition noteRename (cp np line : string) : string :=
  if renamesTo cp line then nth 1 (strings.Split line TAB) "" else np.

(** The cursor after a record read with cursor [cp]: the name noted last,
    unless it is empty. *)
Definition settle (cp np : string) : string :=
  if String.eqb np "" then cp else np.

Definition cursorAfterSection (cp : string) (body : list string) : string :=
  settle cp (fold_left (noteRename cp) body "").

(** The entries of a sequence of records read from the cursor [cp]: one per
    well-formed marker, under the cursor of its turn. *)
Fixpoint entriesOf (cp : string) (rs : list (option LogEntry * list string))
  : list FileHistoryEntry :=
  match rs with
  | [] => []
  | (None, _) :: rest => entriesOf cp rest
  | (Some hdr, body) :: rest =>
      {| Log := hdr; Path := cp |} :: entriesOf (cursorAfterSection cp body) rest
  end.

(** A status line that reports a rename: a status code that begins with
    [R] and at least two more fields. *)
Definition isRename (line : string) : bool :=
  let parts := strings.Split line TAB in
  strings.HasPrefix (nth 0 parts "") "R" && (3 <=? length parts).

(** The old names of the rename lines of an output. *)
Definition oldNames (lines : list string) : list string :=
  map (fun l => nth 1 (strings.Split l TAB) "") (filter isRename lines).

End Records.

(** ** White space at the ends of a string *)

Module Blank.

(** The string begins with a white space rune; with [fwd = false] the
    string is read as a reversed one, as in [strings.trimLeading]. *)
Definition startsSpace (fwd : bool) (s : string) : bool :=
  match s with
  | EmptyString => false
  | String c1 r1 =>
      strings.asciiSpace c1
      || match r1 with
         | EmptyString => false
         | String c2 r2 =>
             (if fwd then strings.space2 c1 c2 else strings.space2 c2 c1)
             || match r2 with
                | EmptyString => false
                | String c3 _ =>
                    if fwd then strings.space3 c1 c2 c3 else strings.space3 c3 c2 c1
                end
         end
  end.

End Blank.

(** ** Path elements *)

Module Elements.

(** The byte [sep] does not occur in [s]. *)
Fixpoint free (sep : ascii) (s : string) : bool :=
  match s with
  | EmptyString => true
  | String c s' => negb (Ascii.eqb c sep) && free sep s'
  end.

(** An element [filepath.Clean] writes as it reads it: not empty, not the
    current nor the parent directory, and without a slash. *)
Definition real (e : string) : Prop :=
  e <> "" /\ e <> "." /\ e <> ".." /\ free SLASH e = true.

(** The end of [normalizeRepoRelativePath]: the path is cleaned, a leading
    [./] is cut, and the last test decides. *)
Definition finish (path : string) : string * bool :=
  let path := filepath.ToSlash (filepath.Clean path) in
  let path := strings.TrimPrefix path "./" in
  if String.eqb path "." || String.eqb path "" || strings.HasPrefix path "../"
  then ("", false)
  else (path, true).

End Elements.

(** ** Package [git]: the tree listing

    [TreeEntry] and [ListTree] stand in a module of their own because the
    fields [Hash] and [Path] of a tree entry bear the names of those of the
    log entries. *)

Module git_tree.

(** The field in progress, kept last byte first, closed into the fields
    that follow it. *)
Definition emit (cur : list ascii) (rest : list string) : list string :=
  match cur with
  | [] => rest
  | _ :: _ => string_of_list_ascii (rev cur) :: rest
  end.

(** [strings.Fields(s)], with the field in progress as an accumulator: the
    string is cut around each run of white space runes, and no field is
    empty. *)
Fixpoint fieldsFrom (s : string) (cur : list ascii) : list string :=
  match s with
  | EmptyString => emit cur []
  | String c1 r1 =>
      if strings.asciiSpace c1 then emit cur (fieldsFrom r1 [])
      else
        match r1 with
        | EmptyString => fieldsFrom r1 (c1 :: cur)
        | String c2 r2 =>
            if strings.space2 c1 c2 then emit cur (fieldsFrom r2 [])
            else
              match r2 with
              | EmptyString => fieldsFrom r1 (c1 :: cur)
              | String c3 r3 =>
                  if strings.space3 c1 c2 c3 then emit cur (fieldsFrom r3 [])
                  else fieldsFrom r1 (c1 :: cur)
              end
        end
  end.

Definition Fields (s : string) : list string := fieldsFrom s [].

(** [strings.HasSuffix(s, suffix)]. *)
Definition HasSuffix (s suffix : string) : bool :=
  (String.length suffix <=? String.length s)
  && String.eqb (strings.drop (String.length s - String.length suffix) s) suffix.

(** [TreeEntry] represents a file or directory in the repository.  [Type_]
    is the field [Type]. *)
Record TreeEntry : Type := mkTreeEntry {
  Mode : string;
  Type_ : string;
  Hash : string;
  Name : string;
  Path : string
}.

(** One turn of the loop over the lines, with the value [path] has when the
    loop runs. *)
Definition treeStep (path : string) (entries : list TreeEntry) (line : string)
  : list TreeEntry :=
  let fields := Fields line in
  if 4 <=? length fields then
    let name := strings.Join (skipn 3 fields) " " in
    (entries ++ [{| Mode := nth 0 fields "";
                    Type_ := nth 1 fields "";
                    Hash := nth 2 fields "";
                    Name := strings.TrimPrefix name path;
                    Path := name |}])%list
  else entries.

Section Tool.

Variable exec : string -> list string -> ExecResult.

(** [ListTree] returns the contents of a directory at a specific revision
    and path. *)
Definition ListTree (repoPath rev path : string) : Git (result (list TreeEntry)) :=
  let rev := if String.eqb rev "" then "HEAD" else rev in
  let args := ["ls-tree"; rev] in
  let (path, args) :=
    if negb (String.eqb path "") then
      let path := strings.TrimPrefix path "/" in
      let path :=
        if negb (String.eqb path "") && negb (HasSuffix path "/")
        then (path ++ "/")%string else path in
      (path, (args ++ [path])%list)
    else (path, (args ++ ["."])%list) in
  r <- git.Command exec repoPath args ;;
  match r with
  | Err err => ret (Err err)
  | Ok out =>
      if String.eqb out "" then ret (Ok [])
      else ret (Ok (fold_left (treeStep path) (strings.Split out NL) []))
  end.

End Tool.

(** The directory a listing is asked for: the path without its leading
    slash and, unless that leaves nothing, with a slash at its end. *)
Definition listed (path : string) : string :=
  let path := strings.TrimPrefix path "/" in
  if negb (String.eqb path "") && negb (HasSuffix path "/")
  then (path ++ "/")%string else path.

(** The argument that names the directory: the dot for the empty path. *)
Definition treeArg (path : string) : string :=
  if String.eqb path "" then "." else listed path.

(** The prefix cut from the names: nothing for the empty path. *)
Definition treePrefix (path : string) : string :=
  if String.eqb path "" then "" else listed path.

(** A line of [git ls-tree]: mode, type and hash, a tab, and the name, here
    by its words. *)
Definition treeLine (mode type hash : string) (nameWords : list string) : string :=
  (mode ++ " " ++ type ++ " " ++ hash ++ String TAB (strings.Join nameWords " "))%string.

(** A word: not empty and without a byte of a white space rune. *)
Definition word (w : string) : Prop :=
  w <> "" /\ Forall (fun c => Output.spaceByte c = false) (list_ascii_of_string w).

(** The entry of a line of [git ls-tree] listed under [path]. *)
Definition entryOf (path mode type hash : string) (nameWords : list string)
  : TreeEntry :=
  {| Mode := mode; Type_ := type; Hash := hash;
     Name := strings.TrimPrefix (strings.Join nameWords " ") (treePrefix path);
     Path := strings.Join nameWords " " |}.

(** What a line of [git ls-tree] says: mode, type, hash and the words of
    the name. *)
Definition Item : Type := (string * string * string * list string)%type.

Definition lineOf (it : Item) : string :=
  let '(mode, type, hash, nameWords) := it in treeLine mode type hash nameWords.

Definition entryOfItem (path : string) (it : Item) : TreeEntry :=
  let '(mode, type, hash, nameWords) := it in entryOf path mode type hash nameWords.

Definition itemOk (it : Item) : Prop :=
  let '(mode, type, hash, nameWords) := it in
  word mode /\ word type /\ word hash /\ nameWords <> [] /\ Forall word nameWords.

End git_tree.

(** ** Package [git]: the commit diff and the check of a repository *)

Module git_repo.

Section Tool.

Variable exec : string -> list string -> ExecResult.

(** [GetCommitDiff] returns the diff of a specific commit. *)
Definition GetCommitDiff (repoPath hash : string) : Git (result string) :=
  git.Command exec repoPath ["show"; hash].

(** [ValidateRepository] checks whether path points to a git working
    tree; [None] is the nil error. *)
Definition ValidateRepository (repoPath : string) : Git (option error) :=
  r <- git.Command exec repoPath ["rev-parse"; "--is-inside-work-tree"] ;;
  match r with
  | Err err => ret (Some err)
  | Ok out =>
      if negb (String.eqb out "true")
      then ret (Some (repoPath ++ " is not a git repository")%string)
      else ret None
  end.

End Tool.

End git_repo.

(** ** Sample data for the tree listing *)

Module Samples.

(** Two lines of [git ls-tree HEAD a/]: a file, and a directory with a
    space in its name. *)
Definition items : list git_tree.Item :=
  [ ("100644", "blob", "9daeafb9864cf43055ae93beb0afd6c7d144bfa4", ["a/f.kt"]);
    ("040000", "tree", "4b825dc642cb6eb9a060e54bf8d69288fbee4904", ["a/my"; "dir"]) ].

End Samples.

(** ** Package [main]: the configuration at start *)

Module startup.

Import main.

(** [strings.Contains(s, substr)]. *)
Fixpoint Contains (s substr : string) : bool :=
  strings.HasPrefix s substr
  || match s with
     | EmptyString => false
     | String _ s' => Contains s' substr
     end.

Record repoConfig : Type := mkRepoConfig {
  Name : string;
  Path : string
}.

Record appConfig : Type := mkAppConfig {
  Repos : list repoConfig
}.

(** The world outside the program: the environment variables, the content
    of files, the decoding of JSON into an [appConfig], the absolute form
    of a path, whether a path is a directory ([os.Stat] and [IsDir]), and
    the quoting of [%q]. *)
Record World : Type := mkWorld {
  Getenv : string -> string;
  ReadFile : string -> result string;
  Unmarshal : string -> result appConfig;
  Abs : string -> result string;
  StatIsDir : string -> result bool;
  Quote : string -> string
}.

Section Start.

Variable world : World.
Variable exec : string -> list string -> ExecResult.

(** [loadConfig]. *)
Definition loadConfig (path : string) : result appConfig :=
  match ReadFile world path with
  | Err err => Err ("read config " ++ Quote world path ++ ": " ++ err)%string
  | Ok content =>
      match Unmarshal world content with
      | Err err => Err ("parse config " ++ Quote world path ++ ": " ++ err)%string
      | Ok cfg => Ok cfg
      end
  end.

(** The loop of [loadApp] over [config.Repos], with the map [repos] and the
    slice [repoNames] filled so far. *)
Fixpoint loadRepos (todo : list repoConfig) (repos : list (string * string))
  (repoNames : list string) : Git (result (list (string * string) * list string)) :=
  match todo with
  | [] => ret (Ok (repos, repoNames))
  | repo :: todo' =>
      let name := strings.TrimSpace (Name repo) in
      if String.eqb name "" then ret (Err "all repos must have a non-empty name")
      else if Contains name "/" then
        ret (Err ("repo name " ++ Quote world name ++ " cannot contain '/'")%string)
      else
        match lookupRepo repos name with
        | Some _ =>
            ret (Err ("repo name " ++ Quote world name ++ " is duplicated")%string)
        | None =>
            let repoPath := strings.TrimSpace (Path repo) in
            if String.eqb repoPath "" then
              ret (Err ("repo " ++ Quote world name
                        ++ " must have a non-empty path")%string)
            else
              match Abs world repoPath with
              | Err err =>
                  ret (Err ("resolve path for repo " ++ Quote world name
                            ++ ": " ++ err)%string)
              | Ok absPath =>
                  match StatIsDir world absPath with
                  | Err err =>
                      ret (Err ("repo " ++ Quote world name ++ " path "
                                ++ Quote world absPath ++ " is invalid: " ++ err)%string)
                  | Ok isDir =>
                      if negb isDir then
                        ret (Err ("repo " ++ Quote world name ++ " path "
                                  ++ Quote world absPath
                                  ++ " is not a directory")%string)
                      else
                        v <- git_repo.ValidateRepository exec absPath ;;
                        match v with
                        | Some err =>
                            ret (Err ("repo " ++ Quote world name ++ " path "
                                      ++ Quote world absPath
                                      ++ " is not a valid git working tree: "
                                      ++ err)%string)
                        | None =>
                            loadRepos todo' ((name, absPath) :: repos)
                              (repoNames ++ [name])%list
                        end
                  end
              end
        end
  end.

(** [loadApp]. *)
Definition loadApp : Git (result app) :=
  let cfgPath := Getenv world "GITBROWSER_CONFIG" in
  let cfgPath := if String.eqb cfgPath "" then "repos.json" else cfgPath in
  match loadConfig cfgPath with
  | Err err => ret (Err err)
  | Ok config =>
      r <- loadRepos (Repos config) [] [] ;;
      match r with
      | Err err => ret (Err err)
      | Ok (repos, repoNames) =>
          if length repoNames =? 0
          then ret (Err "config must include at least one repo")
          else ret (Ok {| main.repos := repos;
                          main.repoNames := repoNames;
                          main.defaultRepo := nth 0 repoNames "" |})
      end
  end.

End Start.

(** The name under which a configured repository is kept. *)
Definition nameOf (repo : repoConfig) : string := strings.TrimSpace (Name repo).

(** The configuration file that [loadApp] reads. *)
Definition configPath (world : World) : string :=
  if String.eqb (Getenv world "GITBROWSER_CONFIG") "" then "repos.json"
  else Getenv world "GITBROWSER_CONFIG".

(** The invocation that checks the repository at [absPath]. *)
Definition checkOf (absPath : string) : Invocation :=
  (absPath, ["rev-parse"; "--is-inside-work-tree"]).

(** The path [absPath] passed every test of the loop: it is the absolute
    form of the trimmed configured path, a directory, and a place where
    the tool answers [true]. *)
Definition accepted (world : World) (exec : string -> list string -> ExecResult)
  (repo : repoConfig) (absPath : string) : Prop :=
  Abs world (strings.TrimSpace (Path repo)) = Ok absPath
  /\ StatIsDir world absPath = Ok true
  /\ git.outcome (exec absPath ["rev-parse"; "--is-inside-work-tree"]) = Ok "true".

End startup.

(** ** A sample configuration *)

Module SampleApp.

(** A world with a configuration of two repositories, the names written
    with white space around them, and a tool that finds a work tree
    everywhere. *)
Definition config : startup.appConfig :=
  {| startup.Repos :=
       [ {| startup.Name := " app1 "; startup.Path := "/repos/app1" |};
         {| startup.Name := "app2"; startup.Path := " repos/app2" |} ] |}.

Definition world : startup.World :=
  {| startup.Getenv := fun _ => "";
     startup.ReadFile := fun path =>
       if String.eqb path "repos.json" then Ok "{}" else Err "no such file";
     startup.Unmarshal := fun _ => Ok config;
     startup.Abs := fun path =>
       Ok (if strings.HasPrefix path "/" then path else "/srv/" ++ path)%string;
     startup.StatIsDir := fun _ => Ok true;
     startup.Quote := fun s => (String "034" s ++ String "034" "")%string |}.

Definition workTree (dir : string) (args : list string) : ExecResult :=
  Scenario.success (Scenario.line "true").

Definition loaded : main.app :=
  {| main.repos := [("app2", "/srv/repos/app2"); ("app1", "/repos/app1")];
     main.repoNames := ["app1"; "app2"];
     main.defaultRepo := "app1" |}.

End SampleApp.

(** ** Package [main]: the other handlers *)

Module pages.

Import git main.

(** What these handlers do with the request: the call
    [http.Redirect(w, r, url, http.StatusFound)], recorded with the
    argument [url] as the handler computes it; the tree or the commits
    template with its data; or one of the answers of [main.Response].
    What [net/http] makes of the argument of [http.Redirect] (it cleans
    the path and escapes the bytes outside ASCII before it writes the
    [Location] header) is library code and is not modelled: the statements
    about [CallRedirect] are about the argument of the call, not about the
    header the client receives. *)
Inductive Reply : Type :=
| CallRedirect (url : string)
| TreePage (base : baseViewData) (path : string)
    (entries : list git_tree.TreeEntry)
| CommitsPage (base : baseViewData) (commits : list LogEntry)
| Other (r : Response).

Section Tool.

Variable exec : string -> list string -> ExecResult.

(** [repoIndexHandler], from the URL parameter [repo]: the repository is
    looked up, the current branch asked for, and [http.Redirect] called
    with the URL put together from the two. *)
Definition repoIndexHandler (a : app) (repoName : string) : Git Reply :=
  match lookupRepo (repos a) repoName with
  | None => ret (Other NotFound)
  | Some repoPath =>
      b <- GetCurrentBranch exec repoPath ;;
      let currentBranch :=
        match b with
        | Ok currentBranch =>
            if String.eqb currentBranch "" then "HEAD" else currentBranch
        | Err _ => "HEAD"
        end in
      ret (CallRedirect
             ("/repo/" ++ repoName ++ "/tree/" ++ currentBranch ++ "/")%string)
  end.

(** [treeHandler], from the URL parameters [repo], [rev] and [*]. *)
Definition treeHandler (a : app) (repoName rev path : string) : Git Reply :=
  match lookupRepo (repos a) repoName with
  | None => ret (Other NotFound)
  | Some repoPath =>
      r <- git_tree.ListTree exec repoPath rev path ;;
      match r with
      | Err err => ret (Other (InternalServerError err))
      | Ok entries =>
          base <- baseData exec a repoName repoPath rev ;;
          ret (TreePage base path entries)
      end
  end.

(** [commitsHandler], from the URL parameters [repo] and [rev]. *)
Definition commitsHandler (a : app) (repoName rev : string) : Git Reply :=
  match lookupRepo (repos a) repoName with
  | None => ret (Other NotFound)
  | Some repoPath =>
      rev <- (if String.eqb rev "" then
                b <- GetCurrentBranch exec repoPath ;;
                ret match b with Ok rev => rev | Err _ => "" end
              else ret rev) ;;
      r <- GetLog exec repoPath rev ;;
      match r with
      | Err err => ret (Other (InternalServerError err))
      | Ok commits =>
          base <- baseData exec a repoName repoPath rev ;;
          ret (CommitsPage base commits)
      end
  end.

(** [commitHandler], from the URL parameters [repo] and [hash]. *)
Definition commitHandler (a : app) (repoName hash : string) : Git Reply :=
  match lookupRepo (repos a) repoName with
  | None => ret (Other NotFound)
  | Some repoPath =>
      r <- git_repo.GetCommitDiff exec repoPath hash ;;
      match r with
      | Err err => ret (Other (InternalServerError err))
      | Ok diff =>
          b <- GetCurrentBranch exec repoPath ;;
          let rev := match b with Ok rev => rev | Err _ => "" end in
          base <- baseData exec a repoName repoPath rev ;;
          ret (Other (CommitPage base hash diff ""))
      end
  end.

End Tool.

(** The invocation that asks for the current branch. *)
Definition branchQuery (repoPath : string) : Invocation :=
  (repoPath, ["rev-parse"; "--abbrev-ref"; "HEAD"]).

End pages.

(** ** Outputs with records the parsers do not read

    Variations of the scenario: a commit whose subject holds the field
    separator, rename lines the tool does not write, a chain of two
    renames, and a tool that names the current branch. *)

Module Cases.

Import git.

(** A tool that answers every invocation with the line [main]. *)
Definition onMain : string -> list string -> ExecResult :=
  Scenario.answer ["main"].











(** A history of the new name in which the move is the second commit and
    has the subject [move a|b]; the newest commit modifies the file. *)
Definition lostMove : list string :=
  [ Scenario.moveMarker; Scenario.tabbed ["M"; Scenario.newPath]; "";
    "__GB__" ++ Scenario.H2 ++ "|Test User|2024-03-02|move a|b";
    Scenario.moveLine; "";
    "__GB__" ++ Scenario.H1 ++ "|Test User|2024-03-01|v1";
    Scenario.tabbed ["A"; Scenario.oldPath] ].

(** The entries of the three commits of the scenario. *)
Definition entry (hash date subject path : string) : FileHistoryEntry :=
  {| Log := {| Hash := hash; Author := "Test User"; Date := date;
               Subject := subject |};
     Path := path |}.

Definition e1 : string -> FileHistoryEntry := entry Scenario.H1 "2024-03-01" "v1".
Definition e3 : string -> FileHistoryEntry := entry Scenario.H3 "2024-03-03" "v3".

End Cases.

(** Case analysis on a split into at most five fields. *)
Ltac fields l :=
  destruct l as [|?h [|?a [|?d [|?s [|? ?]]]]].

(** Boolean hypotheses taken apart down to equations between numbers. *)
Ltac split_bools :=
  repeat match goal with
         | H : _ && _ = true |- _ => apply andb_prop in H; destruct H
         | H : _ || _ = true |- _ => apply orb_prop in H; destruct H
         | H : (_ =? _) = true |- _ => apply Nat.eqb_eq in H; subst
         end.

(** * Properties *)

Example Split_three : strings.Split "a|b||c" PIPE = ["a"; "b"; ""; "c"].
Proof. reflexivity. Qed.

Example Split_empty : strings.Split "" NL = [""].
Proof. reflexivity. Qed.

Example TrimSpace_both :
  strings.TrimSpace (String TAB " a b " ++ String NL "") = "a b".
Proof. reflexivity. Qed.

Example TrimPrefix_slash : strings.TrimPrefix "/a/b" "/" = "a/b".
Proof. reflexivity. Qed.

Example Clean_samples :
  map filepath.Clean ["a//b/./c/.."; "../a/../.."; "/../a"; "a/.."; ""; "/"; "./x"; ".."]
  = ["a/b"; "../.."; "/a"; "."; "."; "/"; "x"; ".."].
Proof. reflexivity. Qed.


(** ** The history parser *)

Section Parser.

Import git Output.

Lemma flush_no_current (st : HistoryState) :
  current st = None -> flush st = st.
Proof. unfold flush; intros ->; reflexivity. Qed.

Lemma current_flush (st : HistoryState) : current (flush st) = None.
Proof. unfold flush; destruct (current st) eqn:E; simpl; auto. Qed.

Lemma nextPath_flush (st : HistoryState) :
  current st = None -> nextPath st = "" -> nextPath (flush st) = "".
Proof. unfold flush; intros -> H; exact H. Qed.

Lemma flush_flush (st : HistoryState) : flush (flush st) = flush st.
Proof. apply flush_no_current, current_flush. Qed.

Lemma step_marker (st : HistoryState) (m : string) (hdr : LogEntry) :
  markerOf m = Some hdr ->
  step st m =
  {| entries := entries (flush st);
     current := Some {| Log := hdr; Path := currentPath (flush st) |};
     currentPath := currentPath (flush st);
     nextPath := nextPath (flush st) |}.
Proof.
  unfold markerOf, isMarker, step.
  destruct (strings.HasPrefix m "__GB__"); [|discriminate].
  fields (strings.Split (strings.TrimPrefix m "__GB__") PIPE); try discriminate.
  intros [= <-]; reflexivity.
Qed.

Lemma step_bad_marker (st : HistoryState) (m : string) :
  isMarker m = true -> markerOf m = None -> step st m = flush st.
Proof.
  unfold markerOf, isMarker, step; intros ->.
  fields (strings.Split (strings.TrimPrefix m "__GB__") PIPE);
    try discriminate; reflexivity.
Qed.

Lemma step_flush_marker (st : HistoryState) (m : string) :
  isMarker m = true -> step (flush st) m = step st m.
Proof.
  unfold isMarker, step; intros ->; rewrite flush_flush; reflexivity.
Qed.

Lemma step_idle (st : HistoryState) (l : string) :
  isMarker l = false -> current st = None -> step st l = st.
Proof. unfold isMarker, step; intros -> ->; reflexivity. Qed.

Lemma headers_flush (st : HistoryState) : headers (flush st) = headers st.
Proof.
  unfold headers, flush; destruct (current st) as [cur|] eqn:C; simpl.
  - rewrite map_app, app_nil_r; simpl.
    destruct (String.eqb (Path cur) ""); reflexivity.
  - rewrite C; reflexivity.
Qed.

Lemma headers_step (st : HistoryState) (l : string) :
  headers (step st l)
  = (headers st ++ match markerOf l with Some e => [e] | None => [] end)%list.
Proof.
  destruct (isMarker l) eqn:M.
  - destruct (markerOf l) as [hdr|] eqn:E.
    + rewrite (step_marker st _ _ E); unfold headers at 1; simpl.
      rewrite <- (headers_flush st); unfold headers.
      rewrite current_flush, app_nil_r; reflexivity.
    + rewrite (step_bad_marker st _ M E), headers_flush, app_nil_r; reflexivity.
  - assert (markerOf l = None) as -> by (unfold markerOf; rewrite M; reflexivity).
    rewrite app_nil_r.
    unfold isMarker in M; unfold step; rewrite M.
    destruct (current st) as [cur|] eqn:C; [|reflexivity].
    repeat match goal with
           | |- context [if ?b then _ else _] => destruct b
           end; unfold headers; simpl; rewrite ?C; reflexivity.
Qed.

Lemma headers_runFrom (lines : list string) (st : HistoryState) :
  headers (runFrom st lines) = (headers st ++ markers lines)%list.
Proof.
  revert st; induction lines as [|l lines IH]; intros st; simpl.
  - rewrite app_nil_r; reflexivity.
  - unfold runFrom in *; simpl; rewrite IH, headers_step, <- app_assoc; reflexivity.
Qed.

Lemma headers_parseFileHistory (path : string) (lines : list string) :
  map Log (parseFileHistory path lines) = markers lines.
Proof.
  unfold parseFileHistory.
  pose proof (headers_flush (runFrom (initState path) lines)) as H.
  rewrite headers_runFrom in H; unfold headers in H.
  rewrite current_flush, app_nil_r in H; exact H.
Qed.

(** Entries put in front stay in front. *)





(** The shape of the states and the steps between them. *)

Lemma flush_idle (es : list FileHistoryEntry) (cp : string) :
  flush (idle es cp) = idle es cp.
Proof. reflexivity. Qed.

Lemma flush_pending (es : list FileHistoryEntry) (hdr : LogEntry) (cp np : string) :
  flush (pending es hdr cp np)
  = idle (es ++ [{| Log := hdr; Path := cp |}]) (if String.eqb np "" then cp else np).
Proof.
  unfold flush, pending, idle; simpl.
  destruct (String.eqb cp "") eqn:E; [|reflexivity].
  apply String.eqb_eq in E; subst; reflexivity.
Qed.

Lemma shaped_flush (st : HistoryState) :
  shaped st -> exists es cp, flush st = idle es cp.
Proof.
  intros [es cp|es hdr cp np].
  - exists es, cp; reflexivity.
  - rewrite flush_pending; eauto.
Qed.

Lemma step_idle_marker (es : list FileHistoryEntry) (cp m : string) (hdr : LogEntry) :
  markerOf m = Some hdr -> step (idle es cp) m = pending es hdr cp "".
Proof. intros H; rewrite (step_marker _ _ _ H); reflexivity. Qed.

Lemma step_pending_section (es : list FileHistoryEntry) (hdr : LogEntry)
  (cp np l : string) :
  isMarker l = false ->
  exists np', step (pending es hdr cp np) l = pending es hdr cp np'
              /\ (renamesTo cp l = false -> np' = np).
Proof.
  unfold isMarker, step, renamesTo; intros ->.
  unfold pending; cbn [current currentPath nextPath entries withPath Log].
  destruct (String.eqb (strings.TrimSpace l) ""); [eauto|].
  destruct (length (strings.Split l TAB) <? 2); [eauto|].
  destruct (strings.HasPrefix (nth 0 (strings.Split l TAB) "") "R"
            && (3 <=? length (strings.Split l TAB))) eqn:R.
  - destruct (String.eqb (nth 2 (strings.Split l TAB) "") cp) eqn:E.
    + apply String.eqb_eq in E; rewrite E.
      eexists; split; [reflexivity|discriminate].
    + eauto.
  - destruct (String.eqb (nth 1 (strings.Split l TAB) "") cp) eqn:E.
    + apply String.eqb_eq in E; rewrite E.
      eexists; split; [reflexivity|reflexivity].
    + eauto.
Qed.

Lemma shaped_step (st : HistoryState) (l : string) :
  shaped st -> shaped (step st l).
Proof.
  intros H.
  destruct (isMarker l) eqn:M.
  - rewrite <- (step_flush_marker st _ M).
    destruct (shaped_flush _ H) as (es & cp & ->).
    destruct (markerOf l) as [hdr|] eqn:E.
    + rewrite (step_idle_marker _ _ _ _ E); constructor.
    + rewrite (step_bad_marker _ _ M E); constructor.
  - destruct H as [es cp|es hdr cp np].
    + rewrite step_idle; [constructor|exact M|reflexivity].
    + destruct (step_pending_section es hdr cp np _ M) as (np' & -> & _).
      constructor.
Qed.

Lemma shaped_runFrom (lines : list string) (st : HistoryState) :
  shaped st -> shaped (runFrom st lines).
Proof.
  revert st; induction lines as [|l lines IH]; intros st H; [exact H|].
  apply IH, shaped_step, H.
Qed.

(** *** Lines that are not blank *)

Lemma spaceCode_range (n : nat) :
  (128 <=? n) = true -> (n <=? 138) = true -> spaceCode n = true.
Proof. intros H1 H2; unfold spaceCode; rewrite H1, H2; apply orb_true_r. Qed.

Lemma space2_codes (n1 n2 : nat) :
  (n1 =? 194) && ((n2 =? 133) || (n2 =? 160)) = true ->
  spaceCode n1 = true /\ spaceCode n2 = true.
Proof. intros H; split_bools; split; reflexivity. Qed.

Lemma space3_codes (n1 n2 n3 : nat) :
  ((n1 =? 225) && (n2 =? 154) && (n3 =? 128))
  || ((n1 =? 226) && (n2 =? 128)
      && (((128 <=? n3) && (n3 <=? 138))
          || (n3 =? 168) || (n3 =? 169) || (n3 =? 175)))
  || ((n1 =? 226) && (n2 =? 129) && (n3 =? 159))
  || ((n1 =? 227) && (n2 =? 128) && (n3 =? 128)) = true ->
  spaceCode n1 = true /\ spaceCode n2 = true /\ spaceCode n3 = true.
Proof.
  intros H; split_bools; repeat split;
    try reflexivity; apply spaceCode_range; assumption.
Qed.

Lemma space2_bytes (c1 c2 : ascii) :
  strings.space2 c1 c2 = true -> spaceByte c1 = true /\ spaceByte c2 = true.
Proof.
  intros H; apply space2_codes in H; destruct H as [H1 H2].
  unfold spaceByte; rewrite H1, H2, !orb_true_r; auto.
Qed.

Lemma space3_bytes (c1 c2 c3 : ascii) :
  strings.space3 c1 c2 c3 = true ->
  spaceByte c1 = true /\ spaceByte c2 = true /\ spaceByte c3 = true.
Proof.
  intros H; apply space3_codes in H; destruct H as (H1 & H2 & H3).
  unfold spaceByte; rewrite H1, H2, H3, !orb_true_r; auto.
Qed.

Lemma trimLeading_empty (fwd : bool) (n : nat) (s : string) :
  String.length s <= n ->
  strings.trimLeading fwd s = "" ->
  Forall (fun c => spaceByte c = true) (list_ascii_of_string s).
Proof.
  revert s; induction n as [|n IH]; intros s Hn H.
  - destruct s; [constructor|simpl in Hn; lia].
  - destruct s as [|c1 r1]; [constructor|].
    simpl in Hn, H.
    destruct (strings.asciiSpace c1) eqn:A1.
    + simpl; constructor; [unfold spaceByte; rewrite A1; reflexivity|].
      apply IH; [lia|exact H].
    + destruct r1 as [|c2 r2]; [discriminate|].
      simpl in Hn.
      destruct (if fwd then strings.space2 c1 c2 else strings.space2 c2 c1) eqn:A2.
      * assert (spaceByte c1 = true /\ spaceByte c2 = true) as [S1 S2]
          by (destruct fwd; apply space2_bytes in A2; tauto).
        simpl; constructor; [exact S1|constructor; [exact S2|]].
        apply IH; [lia|exact H].
      * destruct r2 as [|c3 r3]; [discriminate|].
        simpl in Hn.
        destruct (if fwd then strings.space3 c1 c2 c3 else strings.space3 c3 c2 c1)
          eqn:A3; [|discriminate].
        assert (spaceByte c1 = true /\ spaceByte c2 = true /\ spaceByte c3 = true)
          as (S1 & S2 & S3)
          by (destruct fwd; apply space3_bytes in A3; tauto).
        simpl; constructor; [exact S1|constructor; [exact S2|constructor; [exact S3|]]].
        apply IH; [lia|exact H].
Qed.

Lemma reverse_empty (s : string) : strings.reverse s = "" -> s = "".
Proof.
  unfold strings.reverse; intros H.
  apply (f_equal list_ascii_of_string) in H.
  rewrite list_ascii_of_string_of_list_ascii in H; simpl in H.
  destruct s as [|c r]; [reflexivity|].
  simpl in H; destruct (rev (list_ascii_of_string r)); discriminate.
Qed.

Lemma trimLeading_keeps (s : string) (c : ascii) :
  spaceByte c = false ->
  strings.trimLeading true (String c s) = String c s.
Proof.
  intros H; unfold spaceByte in H.
  apply orb_false_elim in H; destruct H as [A E].
  assert (forall c2, strings.space2 c c2 = false) as N2.
  { intros c2; destruct (strings.space2 c c2) eqn:X; [|reflexivity].
    apply space2_bytes in X; destruct X as [X _].
    unfold spaceByte in X; rewrite A, E in X; discriminate. }
  assert (forall c2 c3, strings.space3 c c2 c3 = false) as N3.
  { intros c2 c3; destruct (strings.space3 c c2 c3) eqn:X; [|reflexivity].
    apply space3_bytes in X; destruct X as [X _].
    unfold spaceByte in X; rewrite A, E in X; discriminate. }
  simpl; rewrite A.
  destruct s as [|c2 [|c3 r]]; rewrite ?N2, ?N3; reflexivity.
Qed.

Lemma TrimSpace_nonblank (s : string) (c : ascii) :
  spaceByte c = false -> strings.TrimSpace (String c s) <> "".
Proof.
  intros H E; unfold strings.TrimSpace in E.
  rewrite (trimLeading_keeps _ _ H) in E.
  apply reverse_empty in E.
  apply (trimLeading_empty false (String.length (strings.reverse (String c s))))
    in E; [|lia].
  unfold strings.reverse in E.
  rewrite list_ascii_of_string_of_list_ascii in E.
  rewrite Forall_forall in E.
  specialize (E c); rewrite H in E.
  assert (true = false -> False) by discriminate.
  apply H0; symmetry; apply E.
  apply in_rev; rewrite rev_involutive; left; reflexivity.
Qed.

(** *** Fields of a line *)

Lemma Split_first (s : string) (sep : ascii) (c : ascii) (p : string)
  (rest : list string) :
  strings.Split s sep = String c p :: rest -> exists t, s = String c t.
Proof.
  destruct s as [|c' s']; simpl; [discriminate|].
  destruct (Ascii.eqb c' sep); [discriminate|].
  destruct (strings.Split s' sep); intros [= -> _]; eauto.
Qed.

Lemma status_line_starts (l status : string) (rest : list string) (c : ascii) :
  strings.Split l TAB = status :: rest ->
  strings.HasPrefix status (String c "") = true ->
  exists t, l = String c t.
Proof.
  intros S H.
  destruct status as [|c' p]; [discriminate|].
  simpl in H; apply andb_prop in H; destruct H as [H _].
  apply Ascii.eqb_eq in H; subst c'.
  exact (Split_first _ _ _ _ _ S).
Qed.

(** *** One record *)

Lemma runFrom_app (st : HistoryState) (l1 l2 : list string) :
  runFrom st (l1 ++ l2) = runFrom (runFrom st l1) l2.
Proof. apply fold_left_app. Qed.




Lemma flush_restart (st : HistoryState) (post : list string) :
  startsRecord post ->
  flush (runFrom st post) = flush (runFrom (flush st) post).
Proof.
  destruct post as [|m post]; simpl; intros H.
  - rewrite flush_flush; reflexivity.
  - unfold runFrom; simpl; rewrite (step_flush_marker st _ H); reflexivity.
Qed.

Lemma markerOf_isMarker (m : string) (hdr : LogEntry) :
  markerOf m = Some hdr -> isMarker m = true.
Proof. unfold markerOf; destruct (isMarker m); [reflexivity|discriminate]. Qed.


(** *** The cursor between renames *)




Lemma steady_step (p : string) (st : HistoryState) (l : string) :
  renamesTo p l = false -> steady p st -> steady p (step st l).
Proof.
  intros R (es & F & St).
  assert (exists es', Forall (fun e => Path e = p) es' /\ flush st = idle es' p)
    as (es' & F' & Fl).
  { destruct St as [->|(hdr & ->)].
    - exists es; split; [exact F|reflexivity].
    - rewrite flush_pending; simpl; eexists; split; [|reflexivity].
      apply Forall_app; split; [exact F|repeat constructor]. }
  destruct (isMarker l) eqn:M.
  - rewrite <- (step_flush_marker st _ M), Fl.
    exists es'; split; [exact F'|].
    destruct (markerOf l) as [hdr|] eqn:E.
    + rewrite (step_idle_marker _ _ _ _ E); right; eauto.
    + rewrite (step_bad_marker _ _ M E); left; reflexivity.
  - exists es; split; [exact F|].
    destruct St as [->|(hdr & ->)].
    + left; apply step_idle; [exact M|reflexivity].
    + right; exists hdr.
      destruct (step_pending_section es hdr p "" _ M) as (np' & -> & K).
      rewrite (K R); reflexivity.
Qed.

Lemma steady_parse (p : string) (lines : list string) :
  Forall (fun l => renamesTo p l = false) lines ->
  Forall (fun e => Path e = p) (parseFileHistory p lines).
Proof.
  intros H; unfold parseFileHistory.
  assert (steady p (runFrom (initState p) lines)) as (es & F & St).
  { assert (steady p (initState p)) as S0
      by (exists []; split; [constructor|left; reflexivity]).
    revert S0; generalize (initState p).
    induction H as [|l lines R _ IH]; intros st S0; [exact S0|].
    apply IH, steady_step; assumption. }
  destruct St as [->|(hdr & ->)]; [exact F|].
  rewrite flush_pending; simpl.
  apply Forall_app; split; [exact F|repeat constructor].
Qed.

End Parser.

(** ** The functions that run the tool, as functions of its answers *)

Section Runs.

Import git Output.

Variable exec : string -> list string -> ExecResult.

Lemma Command_run (repoPath : string) (args : list string) (log : list Invocation) :
  Command exec repoPath args log
  = (outcome (exec repoPath args), (log ++ [(repoPath, args)])%list).
Proof. reflexivity. Qed.

Lemma GetFileHistory_run (repoPath rev path : string) (log : list Invocation) :
  GetFileHistory exec repoPath rev path log
  = (historyOf path (outcome (exec repoPath (historyQuery rev path))),
     (log ++ [(repoPath, historyQuery rev path)])%list).
Proof.
  unfold GetFileHistory, bind, historyOf, historyQuery; rewrite Command_run.
  destruct (outcome _) as [out|err]; [|reflexivity].
  destruct (String.eqb out ""); reflexivity.
Qed.

Lemma GetLog_run (repoPath rev : string) (log : list Invocation) :
  GetLog exec repoPath rev log
  = (logOf (outcome (exec repoPath (logQuery rev))),
     (log ++ [(repoPath, logQuery rev)])%list).
Proof.
  unfold GetLog, bind, logOf, logQuery; rewrite Command_run.
  destruct (outcome _) as [out|err]; [|reflexivity].
  destruct (String.eqb out ""); reflexivity.
Qed.

Lemma GetCommitFileDiff_run (repoPath hash path : string) (log : list Invocation) :
  GetCommitFileDiff exec repoPath hash path log
  = (outcome (exec repoPath (diffQuery hash path)),
     (log ++ [(repoPath, diffQuery hash path)])%list).
Proof. reflexivity. Qed.

End Runs.

(** ** The history resolver *)

Section HistoryResolver.

Import git Output.





(** C6.  Ordering.  The commit log entries of the returned sequence are
    those of the well-formed commit markers of the output, line after line
    in the order of the output, which is the order of the tool's log: most
    recent first.  The parser moves no entry. *)
Theorem history_keeps_log_order
  (exec : string -> list string -> ExecResult) (repoPath rev path out : string)
  (es : list FileHistoryEntry) :
  outcome (exec repoPath (historyQuery rev path)) = Ok out ->
  value (GetFileHistory exec repoPath rev path) = Ok es ->
  map Log es = markers (strings.Split out NL).
Proof.
  intros Hout; unfold value; rewrite GetFileHistory_run, Hout; simpl.
  destruct (String.eqb out "") eqn:E.
  - apply String.eqb_eq in E; subst out; intros [= <-]; reflexivity.
  - intros [= <-]; apply headers_parseFileHistory.
Qed.

Lemma history_keeps_log_order_witness :
  map Log (parseFileHistory Scenario.newPath Scenario.historyLines)
  = markers (strings.Split (strings.TrimSpace Scenario.historyOutput) NL).
Proof.
  apply (history_keeps_log_order Scenario.scenarioGit Scenario.repo "HEAD"
           Scenario.newPath (strings.TrimSpace Scenario.historyOutput)
           (parseFileHistory Scenario.newPath Scenario.historyLines)).
  - vm_compute; reflexivity.
  - vm_compute; reflexivity.
Defined.

(** C9.  Determinism.  The result is a function of the revision, the path
    and what the tool answers to the one query made: two runs, whatever
    tool and invocation log each starts from, return the same sequence as
    soon as the tool answers the history query the same way; and two
    invocations in a row on one repository return identical results. *)
Theorem history_deterministic :
  (forall (exec exec' : string -> list string -> ExecResult)
          (repoPath rev path : string) (log log' : list Invocation),
      exec repoPath (historyQuery rev path) = exec' repoPath (historyQuery rev path) ->
      fst (GetFileHistory exec repoPath rev path log)
      = fst (GetFileHistory exec' repoPath rev path log'))
  /\ (forall (exec : string -> list string -> ExecResult)
             (repoPath rev path : string),
         value (first <- GetFileHistory exec repoPath rev path ;;
                second <- GetFileHistory exec repoPath rev path ;;
                ret (first, second))
         = (value (GetFileHistory exec repoPath rev path),
            value (GetFileHistory exec repoPath rev path))).
Proof.
  split.
  - intros exec exec' repoPath rev path log log' H.
    rewrite !GetFileHistory_run, H; reflexivity.
  - intros exec repoPath rev path.
    unfold value, bind, ret; rewrite !GetFileHistory_run; reflexivity.
Qed.

Lemma history_deterministic_witness :
  fst (GetFileHistory Scenario.scenarioGit Scenario.repo "HEAD" Scenario.newPath [])
  = fst (GetFileHistory Scenario.retryFailsGit Scenario.repo "HEAD" Scenario.newPath
           [(Scenario.repo, logQuery "")]).
Proof.
  apply (proj1 history_deterministic Scenario.scenarioGit Scenario.retryFailsGit).
  vm_compute; reflexivity.
Defined.

End HistoryResolver.

(** ** Malformed lines and the query windows *)

Section Lines.

Import git Output.

Lemma logStep_spec (acc : list LogEntry) (line : string) :
  logStep acc line = (acc ++ optionList (logEntryOf line))%list.
Proof.
  unfold logStep, logEntryOf.
  fields (strings.Split line PIPE); simpl; rewrite ?app_nil_r; reflexivity.
Qed.

Lemma fold_logStep (lines : list string) (acc : list LogEntry) :
  fold_left logStep lines acc
  = (acc ++ flat_map (fun l => optionList (logEntryOf l)) lines)%list.
Proof.
  revert acc; induction lines as [|l lines IH]; intros acc; simpl.
  - rewrite app_nil_r; reflexivity.
  - rewrite IH, logStep_spec, <- app_assoc; reflexivity.
Qed.

Lemma parseLog_flat_map (lines : list string) :
  parseLog lines = flat_map (fun l => optionList (logEntryOf l)) lines.
Proof. unfold parseLog; rewrite fold_logStep; reflexivity. Qed.

Lemma parseLog_app (l1 l2 : list string) :
  parseLog (l1 ++ l2) = (parseLog l1 ++ parseLog l2)%list.
Proof. rewrite !parseLog_flat_map; apply flat_map_app. Qed.

Lemma logEntryOf_malformed (line : string) :
  length (strings.Split line PIPE) <> 4 -> logEntryOf line = None.
Proof.
  unfold logEntryOf.
  fields (strings.Split line PIPE); simpl; intros H; try reflexivity.
  contradiction H; reflexivity.
Qed.

Lemma markerOf_malformed (line : string) :
  length (strings.Split (strings.TrimPrefix line "__GB__") PIPE) <> 4 ->
  markerOf line = None.
Proof.
  unfold markerOf; destruct (isMarker line); [|reflexivity].
  fields (strings.Split (strings.TrimPrefix line "__GB__") PIPE);
    simpl; intros H; try reflexivity.
  contradiction H; reflexivity.
Qed.

Lemma step_short_status (st : HistoryState) (line : string) :
  isMarker line = false ->
  length (strings.Split line TAB) < 2 ->
  step st line = st.
Proof.
  unfold isMarker, step; intros -> H.
  destruct (current st); [|reflexivity].
  destruct (String.eqb (strings.TrimSpace line) ""); [reflexivity|].
  apply Nat.ltb_lt in H; rewrite H; reflexivity.
Qed.

Lemma length_parseLog (lines : list string) :
  length (parseLog lines) <= length lines.
Proof.
  rewrite parseLog_flat_map.
  induction lines as [|l lines IH]; simpl; [lia|].
  rewrite length_app.
  destruct (logEntryOf l); simpl; lia.
Qed.

Lemma length_markers (lines : list string) :
  length (markers lines) <= length (filter isMarker lines).
Proof.
  unfold markers.
  induction lines as [|l lines IH]; simpl; [lia|].
  rewrite length_app.
  destruct (markerOf l) as [e|] eqn:E; simpl.
  - rewrite (markerOf_isMarker _ _ E); simpl; lia.
  - destruct (isMarker l); simpl; lia.
Qed.

Lemma length_parseFileHistory (path : string) (lines : list string) :
  length (parseFileHistory path lines) <= length (filter isMarker lines).
Proof.
  rewrite <- (length_map Log), headers_parseFileHistory.
  apply length_markers.
Qed.

(** C8.  Bounded windows.  The commit log query is made once, with the
    limit [-n 20]; the file history query is made once, with the limit
    [-n 50].  The parsers return at most one entry per record of the
    output, so a tool that keeps to the limit gets at most 20 entries, and
    at most 50, back. *)
Theorem bounded_windows
  (exec : string -> list string -> ExecResult) (repoPath rev path : string) :
  calls (GetLog exec repoPath rev)
  = [(repoPath,
      ["log"; if String.eqb rev "" then "HEAD" else rev;
       "--pretty=format:%H|%an|%ad|%s"; "--date=short"; "-n"; "20"])]
  /\ calls (GetFileHistory exec repoPath rev path)
     = [(repoPath,
         ["log"; if String.eqb rev "" then "HEAD" else rev;
          "--pretty=format:__GB__%H|%an|%ad|%s"; "--date=short"; "-n"; "50";
          "--follow"; "--name-status"; "--"; strings.TrimPrefix path "/"])]
  /\ (forall out es,
         outcome (exec repoPath (logQuery rev)) = Ok out ->
         value (GetLog exec repoPath rev) = Ok es ->
         length es <= logRecords out
         /\ (logRecords out <= 20 -> length es <= 20))
  /\ (forall out es,
         outcome (exec repoPath (historyQuery rev path)) = Ok out ->
         value (GetFileHistory exec repoPath rev path) = Ok es ->
         length es <= historyRecords out
         /\ (historyRecords out <= 50 -> length es <= 50)).
Proof.
  split; [|split; [|split]].
  - unfold calls; rewrite GetLog_run; reflexivity.
  - unfold calls; rewrite GetFileHistory_run; reflexivity.
  - intros out es Hout; unfold value; rewrite GetLog_run, Hout; simpl.
    assert (length es <= logRecords out -> length es <= logRecords out
            /\ (logRecords out <= 20 -> length es <= 20)) as K by (split; lia).
    unfold logRecords in *.
    destruct (String.eqb out ""); intros [= <-]; apply K;
      [simpl; lia|apply length_parseLog].
  - intros out es Hout; unfold value; rewrite GetFileHistory_run, Hout; simpl.
    assert (length es <= historyRecords out -> length es <= historyRecords out
            /\ (historyRecords out <= 50 -> length es <= 50)) as K by (split; lia).
    unfold historyRecords in *.
    destruct (String.eqb out ""); intros [= <-]; apply K;
      [simpl; lia|apply length_parseFileHistory].
Qed.

Lemma bounded_windows_witness :
  length (parseFileHistory Scenario.newPath Scenario.historyLines) <= 50
  /\ length (parseLog (firstn 1 Scenario.brokenLog ++ skipn 2 Scenario.brokenLog))
     <= 20.
Proof.
  split.
  - refine (proj2 (proj2 (proj2 (proj2
             (bounded_windows Scenario.scenarioGit Scenario.repo "HEAD"
                Scenario.newPath)))
             (strings.TrimSpace Scenario.historyOutput) _ _ _) _).
    + vm_compute; reflexivity.
    + vm_compute; reflexivity.
    + vm_compute; lia.
  - refine (proj2 (proj1 (proj2 (proj2
             (bounded_windows (Scenario.answer Scenario.brokenLog) Scenario.repo ""
                Scenario.newPath)))
             (strings.TrimSpace
                (Scenario.line (strings.Join Scenario.brokenLog (String NL ""))))
             _ _ _) _).
    + vm_compute; reflexivity.
    + vm_compute; reflexivity.
    + vm_compute; lia.
Defined.

End Lines.

(** ** The path-at-commit resolver *)

Section DiffResolver.

Import git Output main.

Variable exec : string -> list string -> ExecResult.

Lemma retryWithHistory_none (repoPath hash path diff : string)
  (history : list FileHistoryEntry) (log : list Invocation) :
  Forall (fun e => isHistorical hash path e = false) history ->
  retryWithHistory exec repoPath hash path diff history log = ((diff, path), log).
Proof.
  induction 1 as [|e history He _ IH]; simpl; [reflexivity|].
  unfold isHistorical in He; rewrite He; exact IH.
Qed.

Lemma retryWithHistory_found (repoPath hash path diff : string)
  (before : list FileHistoryEntry) (e : FileHistoryEntry)
  (after : list FileHistoryEntry) (log : list Invocation) :
  Forall (fun x => isHistorical hash path x = false) before ->
  isHistorical hash path e = true ->
  retryWithHistory exec repoPath hash path diff (before ++ e :: after) log
  = (match outcome (exec repoPath (diffQuery hash (Path e))) with
     | Ok retryDiff => (retryDiff, Path e)
     | Err _ => (diff, path)
     end,
     (log ++ [(repoPath, diffQuery hash (Path e))])%list).
Proof.
  intros Hb He.
  induction Hb as [|x before Hx _ IH]; simpl.
  - unfold isHistorical in He; rewrite He.
    unfold bind; rewrite GetCommitFileDiff_run.
    destruct (outcome _); reflexivity.
  - unfold isHistorical in Hx; rewrite Hx; exact IH.
Qed.

Lemma resolve_run (repoPath hash path : string) (log : list Invocation) :
  resolveDiffWithFallback exec repoPath hash path log
  = match outcome (exec repoPath (diffQuery hash path)) with
    | Err err => (Err err, (log ++ [(repoPath, diffQuery hash path)])%list)
    | Ok diff =>
        if String.eqb (strings.TrimSpace diff) "" then
          match historyOf path (outcome (exec repoPath (historyQuery "HEAD" path))) with
          | Ok history =>
              let (dp, log') :=
                retryWithHistory exec repoPath hash path diff history
                  ((log ++ [(repoPath, diffQuery hash path)])
                   ++ [(repoPath, historyQuery "HEAD" path)])%list in
              (Ok dp, log')
          | Err _ =>
              (Ok (diff, path),
               ((log ++ [(repoPath, diffQuery hash path)])
                ++ [(repoPath, historyQuery "HEAD" path)])%list)
          end
        else (Ok (diff, path), (log ++ [(repoPath, diffQuery hash path)])%list)
    end.
Proof.
  unfold resolveDiffWithFallback, bind; rewrite GetCommitFileDiff_run.
  destruct (outcome (exec repoPath (diffQuery hash path))) as [diff|err];
    [|reflexivity].
  destruct (String.eqb (strings.TrimSpace diff) ""); [|reflexivity].
  rewrite GetFileHistory_run.
  destruct (historyOf path _) as [history|err]; [|reflexivity].
  destruct (retryWithHistory _ _ _ _ _ _ _); reflexivity.
Qed.

End DiffResolver.

Section DiffResolverClaims.

Import git Output main.

(** C2.  Fallback.  When the diff of the requested path at the commit is
    empty once trimmed, and the first entry the scan of the history from
    [HEAD] meets for that commit under another name is [e], the resolver
    returns the diff the tool gives for the name recorded in [e], and that
    name as the resolved path. *)
Theorem fallback_resolves_historical_path
  (exec : string -> list string -> ExecResult) (repoPath hash path diff : string)
  (before : list FileHistoryEntry) (e : FileHistoryEntry)
  (after : list FileHistoryEntry) (retryDiff : string) :
  value (GetCommitFileDiff exec repoPath hash path) = Ok diff ->
  strings.TrimSpace diff = "" ->
  value (GetFileHistory exec repoPath "HEAD" path) = Ok (before ++ e :: after)%list ->
  Forall (fun x => isHistorical hash path x = false) before ->
  Hash (Log e) = hash ->
  Path e <> path ->
  value (GetCommitFileDiff exec repoPath hash (Path e)) = Ok retryDiff ->
  value (resolveDiffWithFallback exec repoPath hash path) = Ok (retryDiff, Path e).
Proof.
  unfold value; rewrite !GetCommitFileDiff_run, GetFileHistory_run; simpl.
  intros Hdiff Hempty Hhist Hbefore Hhash Hpath Hretry.
  rewrite resolve_run, Hdiff, Hempty, String.eqb_refl, Hhist.
  rewrite (retryWithHistory_found exec repoPath hash path diff before e after _ Hbefore).
  - rewrite Hretry; reflexivity.
  - unfold isHistorical; rewrite Hhash, String.eqb_refl.
    apply String.eqb_neq in Hpath; rewrite Hpath; reflexivity.
Qed.

Lemma fallback_resolves_historical_path_witness :
  value (resolveDiffWithFallback Scenario.scenarioGit Scenario.repo Scenario.H2
           Scenario.newPath)
  = Ok (strings.TrimSpace Scenario.diffH2, Scenario.oldPath).
Proof.
  apply (fallback_resolves_historical_path Scenario.scenarioGit Scenario.repo
           Scenario.H2 Scenario.newPath ""
           (firstn 1 (parseFileHistory Scenario.newPath Scenario.historyLines))
           {| Log := {| Hash := Scenario.H2; Author := "Test User";
                        Date := "2024-03-02"; Subject := "v2" |};
              Path := Scenario.oldPath |}
           (skipn 2 (parseFileHistory Scenario.newPath Scenario.historyLines))
           (strings.TrimSpace Scenario.diffH2)).
  - vm_compute; reflexivity.
  - vm_compute; reflexivity.
  - vm_compute; reflexivity.
  - vm_compute; repeat constructor.
  - reflexivity.
  - vm_compute; discriminate.
  - vm_compute; reflexivity.
Defined.

(** C3.  Failures.  An error of the first diff request is returned as it
    is, and nothing else is asked of the tool.  When the first diff is
    empty once trimmed, a failure of the history lookup, or of the retried
    diff request, is dropped: the result is the first diff with the path
    as given. *)
Theorem fallback_failure_semantics
  (exec : string -> list string -> ExecResult) (repoPath hash path : string) :
  (forall err,
      value (GetCommitFileDiff exec repoPath hash path) = Err err ->
      value (resolveDiffWithFallback exec repoPath hash path) = Err err
      /\ calls (resolveDiffWithFallback exec repoPath hash path)
         = [(repoPath, ["show"; hash; "--"; strings.TrimPrefix path "/"])])
  /\ (forall diff err,
         value (GetCommitFileDiff exec repoPath hash path) = Ok diff ->
         strings.TrimSpace diff = "" ->
         value (GetFileHistory exec repoPath "HEAD" path) = Err err ->
         value (resolveDiffWithFallback exec repoPath hash path) = Ok (diff, path))
  /\ (forall diff before e after err,
         value (GetCommitFileDiff exec repoPath hash path) = Ok diff ->
         strings.TrimSpace diff = "" ->
         value (GetFileHistory exec repoPath "HEAD" path)
         = Ok (before ++ e :: after)%list ->
         Forall (fun x => isHistorical hash path x = false) before ->
         isHistorical hash path e = true ->
         value (GetCommitFileDiff exec repoPath hash (Path e)) = Err err ->
         value (resolveDiffWithFallback exec repoPath hash path) = Ok (diff, path)).
Proof.
  unfold value, calls; split; [|split].
  - intros err; rewrite resolve_run, GetCommitFileDiff_run; simpl.
    intros ->; split; reflexivity.
  - intros diff err; rewrite resolve_run, GetCommitFileDiff_run, GetFileHistory_run.
    simpl; intros -> -> ->; reflexivity.
  - intros diff before e after err.
    rewrite resolve_run, !GetCommitFileDiff_run, GetFileHistory_run; simpl.
    intros -> -> -> Hbefore He Hretry; simpl.
    rewrite (retryWithHistory_found exec repoPath hash path diff before e after _
               Hbefore He), Hretry; reflexivity.
Qed.

Lemma fallback_failure_semantics_witness :
  (value (resolveDiffWithFallback Scenario.scenarioGit Scenario.repo Scenario.H1
            Scenario.newPath)
   = Err "exit status 128: fatal: bad revision"
   /\ calls (resolveDiffWithFallback Scenario.scenarioGit Scenario.repo Scenario.H1
               Scenario.newPath)
      = [(Scenario.repo,
          ["show"; Scenario.H1; "--"; strings.TrimPrefix Scenario.newPath "/"])])
  /\ value (resolveDiffWithFallback Scenario.historyFailsGit Scenario.repo Scenario.H2
              Scenario.newPath)
     = Ok ("", Scenario.newPath)
  /\ value (resolveDiffWithFallback Scenario.retryFailsGit Scenario.repo Scenario.H2
              Scenario.newPath)
     = Ok ("", Scenario.newPath).
Proof.
  split; [|split].
  - apply (proj1 (fallback_failure_semantics Scenario.scenarioGit Scenario.repo
                    Scenario.H1 Scenario.newPath)).
    vm_compute; reflexivity.
  - apply (proj1 (proj2 (fallback_failure_semantics Scenario.historyFailsGit
                           Scenario.repo Scenario.H2 Scenario.newPath))
             "" "exit status 128: fatal: bad object HEAD").
    + vm_compute; reflexivity.
    + vm_compute; reflexivity.
    + vm_compute; reflexivity.
  - apply (proj2 (proj2 (fallback_failure_semantics Scenario.retryFailsGit
                           Scenario.repo Scenario.H2 Scenario.newPath))
             ""
             (firstn 1 (parseFileHistory Scenario.newPath Scenario.historyLines))
             {| Log := {| Hash := Scenario.H2; Author := "Test User";
                          Date := "2024-03-02"; Subject := "v2" |};
                Path := Scenario.oldPath |}
             (skipn 2 (parseFileHistory Scenario.newPath Scenario.historyLines))
             "exit status 128: fatal: bad object").
    + vm_compute; reflexivity.
    + vm_compute; reflexivity.
    + vm_compute; reflexivity.
    + vm_compute; repeat constructor.
    + vm_compute; reflexivity.
    + vm_compute; reflexivity.
Defined.

(** C5.  Direct hit.  When the diff of the requested path at the commit is
    not empty once trimmed, the resolver returns that diff and the path as
    given, and the diff request is the only invocation it makes: the
    history is not consulted. *)
Theorem direct_diff_unchanged
  (exec : string -> list string -> ExecResult) (repoPath hash path diff : string) :
  value (GetCommitFileDiff exec repoPath hash path) = Ok diff ->
  strings.TrimSpace diff <> "" ->
  value (resolveDiffWithFallback exec repoPath hash path) = Ok (diff, path)
  /\ calls (resolveDiffWithFallback exec repoPath hash path)
     = [(repoPath, ["show"; hash; "--"; strings.TrimPrefix path "/"])].
Proof.
  unfold value, calls; rewrite resolve_run, GetCommitFileDiff_run; simpl.
  intros -> Hdiff; apply String.eqb_neq in Hdiff; rewrite Hdiff.
  split; reflexivity.
Qed.

Lemma direct_diff_unchanged_witness :
  value (resolveDiffWithFallback Scenario.scenarioGit Scenario.repo Scenario.H2
           Scenario.oldPath)
  = Ok (strings.TrimSpace Scenario.diffH2, Scenario.oldPath)
  /\ calls (resolveDiffWithFallback Scenario.scenarioGit Scenario.repo Scenario.H2
              Scenario.oldPath)
     = [(Scenario.repo,
         ["show"; Scenario.H2; "--"; strings.TrimPrefix Scenario.oldPath "/"])].
Proof.
  apply (direct_diff_unchanged Scenario.scenarioGit Scenario.repo Scenario.H2
           Scenario.oldPath (strings.TrimSpace Scenario.diffH2)).
  - vm_compute; reflexivity.
  - vm_compute; discriminate.
Defined.

End DiffResolverClaims.

(** ** The guard on request paths *)

Section PathGuard.

Import git Output main.

(** What the last test of [normalizeRepoRelativePath] guarantees of an
    accepted path. *)
Lemma normalize_accepted (repoPath requestedPath path : string) :
  normalizeRepoRelativePath repoPath requestedPath = (path, true) ->
  path <> "" /\ path <> "." /\ strings.HasPrefix path "../" = false.
Proof.
  unfold normalizeRepoRelativePath.
  destruct (String.eqb (strings.TrimPrefix (strings.TrimSpace requestedPath) "/") "");
    [discriminate|].
  match goal with
  | |- context [String.eqb ?p "." || String.eqb ?p "" || strings.HasPrefix ?p "../"] =>
      generalize p
  end.
  intros p.
  destruct (String.eqb p ".") eqn:E1; [discriminate|].
  destruct (String.eqb p "") eqn:E2; [discriminate|].
  destruct (strings.HasPrefix p "../") eqn:E3; [discriminate|].
  simpl; intros [= <-].
  apply String.eqb_neq in E1, E2; auto.
Qed.

Lemma trimLeading_spaces (fwd : bool) (s : string) :
  Forall (fun c => strings.asciiSpace c = true) (list_ascii_of_string s) ->
  strings.trimLeading fwd s = "".
Proof.
  induction s as [|c s IH]; simpl; intros H; [reflexivity|].
  inversion H as [|? ? Hc Hs]; subst; rewrite Hc; apply IH, Hs.
Qed.

(** A request of white space only is rejected. *)
Lemma normalize_blank (repoPath requestedPath : string) :
  Forall (fun c => strings.asciiSpace c = true) (list_ascii_of_string requestedPath) ->
  normalizeRepoRelativePath repoPath requestedPath = ("", false).
Proof.
  intros H; unfold normalizeRepoRelativePath, strings.TrimSpace.
  rewrite (trimLeading_spaces true _ H); reflexivity.
Qed.

Lemma baseData_run (exec : string -> list string -> ExecResult) (a : app)
  (repoName repoPath rev : string) (log : list Invocation) :
  exists base,
    baseData exec a repoName repoPath rev log
    = (base, (log ++ [(repoPath, ["branch"; "--format=%(refname:short)"])])%list).
Proof.
  unfold baseData, GetBranches, bind; rewrite Command_run.
  destruct (outcome _) as [out|err]; [destruct (String.eqb out "")|];
    eexists; reflexivity.
Qed.

Lemma retryWithHistory_extends (exec : string -> list string -> ExecResult)
  (repoPath hash path diff : string) (history : list FileHistoryEntry)
  (log : list Invocation) :
  exists dp more,
    retryWithHistory exec repoPath hash path diff history log
    = (dp, (log ++ more)%list).
Proof.
  induction history as [|e history IH]; simpl.
  - exists (diff, path), []; rewrite app_nil_r; reflexivity.
  - destruct (String.eqb (Hash (Log e)) hash && negb (String.eqb (Path e) path));
      [|exact IH].
    unfold bind; rewrite GetCommitFileDiff_run.
    destruct (outcome _); eexists; eexists; reflexivity.
Qed.

(** C10.  The request [..] is accepted.  Its cleaned form is the parent of
    the repository root, yet [normalizeRepoRelativePath] returns it with
    [ok = true], and each of the three handlers hands it to the tool in its
    first invocation. *)
Theorem normalize_accepts_parent_directory :
  normalizeRepoRelativePath Scenario.repo ".." = ("..", true)
  /\ escapesRoot (filepath.ToSlash (filepath.Clean "..")) = true
  /\ forall exec : string -> list string -> ExecResult,
       hd_error (calls (blobHandler exec Scenario.theApp "app1" "HEAD" ".."))
       = Some (Scenario.repo, ["show"; "HEAD:.."])
       /\ hd_error (calls (fileHistoryHandler exec Scenario.theApp "app1" "HEAD" ".."))
          = Some (Scenario.repo, fileHistoryArgs "HEAD" "..")
       /\ hd_error (calls (fileDiffHandler exec Scenario.theApp "app1" Scenario.H2 ".."))
          = Some (Scenario.repo, ["show"; Scenario.H2; "--"; ".."]).
Proof.
  assert (normalizeRepoRelativePath Scenario.repo ".." = ("..", true)) as N
    by (vm_compute; reflexivity).
  assert (lookupRepo (repos Scenario.theApp) "app1" = Some Scenario.repo) as L
    by (vm_compute; reflexivity).
  split; [exact N|split; [vm_compute; reflexivity|]].
  intros exec; unfold calls, blobHandler, fileHistoryHandler, fileDiffHandler.
  rewrite L, N; cbn [negb].
  split; [|split].
  - unfold bind, GetFileContent; rewrite Command_run.
    destruct (outcome _) as [content|err]; [|reflexivity].
    match goal with
    | |- context [baseData ?e ?a ?n ?p ?rev ?log] =>
        destruct (baseData_run e a n p rev log) as (base & ->)
    end.
    reflexivity.
  - unfold bind; rewrite GetFileHistory_run.
    change (historyQuery "HEAD" "..") with (fileHistoryArgs "HEAD" "..").
    destruct (historyOf _ _) as [commits|err]; [|reflexivity].
    match goal with
    | |- context [baseData ?e ?a ?n ?p ?rev ?log] =>
        destruct (baseData_run e a n p rev log) as (base & ->)
    end.
    reflexivity.
  - unfold bind; rewrite resolve_run.
    change (diffQuery Scenario.H2 "..") with ["show"; Scenario.H2; "--"; ".."].
    set (first := (Scenario.repo, ["show"; Scenario.H2; "--"; ".."])).
    assert (forall (r : string * string) (log : list Invocation),
               hd_error log = Some first ->
               hd_error
                 (snd ((let (diff, resolvedPath) := r in
                        fun log =>
                          let (b, log') := GetCurrentBranch exec Scenario.repo log in
                          let (base, log'') :=
                            baseData exec Scenario.theApp "app1" Scenario.repo
                              match b with Ok rev => rev | Err _ => "" end log' in
                          ret (CommitPage base Scenario.H2 diff resolvedPath) log'')
                         log))
               = Some first) as K.
    { intros [diff resolvedPath] log Hlog.
      unfold GetCurrentBranch; rewrite Command_run.
      match goal with
      | |- context [baseData ?e ?a ?n ?p ?rev ?l] =>
          destruct (baseData_run e a n p rev l) as (base & ->)
      end.
      destruct log as [|x log]; [discriminate|exact Hlog]. }
    destruct (outcome _) as [diff|err]; [|reflexivity].
    destruct (String.eqb (strings.TrimSpace diff) "").
    + destruct (historyOf _ _) as [history|err].
      * match goal with
        | |- context [retryWithHistory ?e ?p ?h ?q ?d ?hs ?log] =>
            destruct (retryWithHistory_extends e p h q d hs log) as (dp & more & ->)
        end.
        apply K; reflexivity.
      * apply (K (diff, "..")); reflexivity.
    + apply (K (diff, "..")); reflexivity.
Qed.

End PathGuard.

(** * Further properties of the code *)

(** ** The history parser as a fold over records *)

Section RecordsFold.

Import git Output Records.

Lemma renamesTo_plain (cp l : string) :
  renamesTo cp l = true ->
  isMarker l = false /\ strings.TrimSpace l <> ""
  /\ (length (strings.Split l TAB) <? 2) = false.
Proof.
  unfold renamesTo; intros H.
  apply andb_prop in H; destruct H as [H _].
  apply andb_prop in H; destruct H as [R L].
  destruct (strings.Split l TAB) as [|status rest] eqn:S; [discriminate|].
  simpl in R.
  destruct (status_line_starts _ _ _ _ S R) as (t & ->).
  split; [reflexivity|split].
  - apply TrimSpace_nonblank; reflexivity.
  - apply Nat.leb_le in L; apply Nat.ltb_ge; simpl in *; lia.
Qed.

Lemma step_pending_note (es : list FileHistoryEntry) (hdr : LogEntry)
  (cp np l : string) :
  isMarker l = false ->
  step (pending es hdr cp np) l = pending es hdr cp (noteRename cp np l).
Proof.
  intros M; unfold noteRename.
  destruct (renamesTo cp l) eqn:R.
  - destruct (renamesTo_plain _ _ R) as (_ & B & L2).
    unfold isMarker in M; unfold step; rewrite M.
    unfold pending; cbn [current currentPath nextPath entries withPath Log].
    apply String.eqb_neq in B; rewrite B, L2.
    unfold renamesTo in R.
    apply andb_prop in R; destruct R as [R E]; rewrite R, E.
    apply String.eqb_eq in E; rewrite E; reflexivity.
  - destruct (step_pending_section es hdr cp np l M) as (np' & -> & K).
    rewrite (K R); reflexivity.
Qed.

Lemma group_marker (l : string) (rest : list string) :
  isMarker l = true ->
  group (l :: rest) = ([], (markerOf l, fst (group rest)) :: snd (group rest)).
Proof. simpl; intros ->; destruct (group rest); reflexivity. Qed.

Lemma group_plain (l : string) (rest : list string) :
  isMarker l = false ->
  group (l :: rest) = (l :: fst (group rest), snd (group rest)).
Proof. simpl; intros ->; destruct (group rest); reflexivity. Qed.

Lemma run_records (lines : list string) :
  (forall es cp,
      entries (flush (runFrom (idle es cp) lines))
      = (es ++ entriesOf cp (records lines))%list)
  /\ (forall es hdr cp np,
         entries (flush (runFrom (pending es hdr cp np) lines))
         = (es ++ {| Log := hdr; Path := cp |}
               :: entriesOf
                    (settle cp (fold_left (noteRename cp) (fst (group lines)) np))
                    (records lines))%list).
Proof.
  induction lines as [|l rest [IHi IHp]].
  - split.
    + intros es cp; simpl; rewrite app_nil_r; reflexivity.
    + intros es hdr cp np.
      change (runFrom (pending es hdr cp np) []) with (pending es hdr cp np).
      rewrite flush_pending; reflexivity.
  - assert (forall es cp,
               entries (flush (runFrom (idle es cp) (l :: rest)))
               = (es ++ entriesOf cp (records (l :: rest)))%list) as Hi.
    { intros es cp.
      change (runFrom ?st (l :: rest)) with (runFrom (step st l) rest).
      unfold records.
      destruct (isMarker l) eqn:M.
      - rewrite (group_marker _ _ M); simpl.
        destruct (markerOf l) as [hdr|] eqn:E.
        + rewrite (step_idle_marker _ _ _ _ E), IHp; reflexivity.
        + rewrite (step_bad_marker _ _ M E), flush_idle, IHi; reflexivity.
      - rewrite (group_plain _ _ M); simpl.
        rewrite step_idle; [apply IHi|exact M|reflexivity]. }
    split; [exact Hi|].
    intros es hdr cp np.
    destruct (isMarker l) eqn:M.
    + rewrite flush_restart by exact M.
      rewrite flush_pending, Hi, (group_marker _ _ M), <- app_assoc; reflexivity.
    + change (runFrom ?st (l :: rest)) with (runFrom (step st l) rest).
      rewrite (step_pending_note _ _ _ _ _ M), IHp.
      unfold records; rewrite (group_plain _ _ M); reflexivity.
Qed.

Lemma history_as_records
  (exec : string -> list string -> ExecResult) (repoPath rev path : string) :
  value (GetFileHistory exec repoPath rev path)
  = match outcome (exec repoPath (historyQuery rev path)) with
    | Ok out =>
        Ok (entriesOf (strings.TrimPrefix path "/")
              (records (strings.Split out NL)))
    | Err err => Err err
    end.
Proof.
  unfold value; rewrite GetFileHistory_run; simpl.
  destruct (outcome _) as [out|err]; [|reflexivity]; simpl.
  destruct (String.eqb out "") eqn:E.
  - apply String.eqb_eq in E; subst out; reflexivity.
  - unfold parseFileHistory.
    rewrite (proj1 (run_records _) [] _); reflexivity.
Qed.

(** X1.  The history parser is a fold over the records of the output: the
    result of [GetFileHistory] is one entry per well-formed marker, each
    under the cursor of its turn, where the cursor starts as the queried
    path and after each record becomes the old name of the record's last
    rename to the cursor, when that name is not empty.  Lines before the
    first marker and lines after a malformed marker change nothing. *)
Theorem history_is_fold_over_records
  (exec : string -> list string -> ExecResult) (repoPath rev path : string) :
  value (GetFileHistory exec repoPath rev path)
  = match outcome (exec repoPath (historyQuery rev path)) with
    | Ok out =>
        Ok (entriesOf (strings.TrimPrefix path "/")
              (records (strings.Split out NL)))
    | Err err => Err err
    end.
Proof.
  unfold value; rewrite GetFileHistory_run; simpl.
  destruct (outcome _) as [out|err]; [|reflexivity]; simpl.
  destruct (String.eqb out "") eqn:E.
  - apply String.eqb_eq in E; subst out; reflexivity.
  - unfold parseFileHistory.
    rewrite (proj1 (run_records _) [] _); reflexivity.
Qed.

Lemma group_lines (lines : list string) :
  (forall l, In l (fst (group lines)) -> In l lines)
  /\ (forall h body l, In (h, body) (records lines) -> In l body -> In l lines).
Proof.
  unfold records; induction lines as [|x rest [IH1 IH2]]; simpl.
  - split; [tauto|intros h body l []].
  - destruct (group rest) as [lead rs]; simpl in *.
    destruct (isMarker x); simpl; split.
    + tauto.
    + intros h body l [[= <- <-]|H] Hl; [right; auto|right; eauto].
    + intros l [<-|H]; auto.
    + intros h body l H Hl; right; eauto.
Qed.

Lemma renamesTo_isRename (cp l : string) :
  renamesTo cp l = true -> isRename l = true.
Proof.
  unfold renamesTo, isRename; intros H.
  apply andb_prop in H; destruct H as [H _]; exact H.
Qed.

Lemma noted_name (cp : string) (body : list string) (np : string) :
  fold_left (noteRename cp) body np = np
  \/ In (fold_left (noteRename cp) body np) (oldNames body).
Proof.
  revert np; induction body as [|l body IH]; intros np; simpl; [auto|].
  unfold oldNames; simpl.
  destruct (IH (noteRename cp np l)) as [E|H].
  - rewrite E; unfold noteRename.
    destruct (renamesTo cp l) eqn:R; [|auto].
    rewrite (renamesTo_isRename _ _ R); right; left; reflexivity.
  - right; destruct (isRename l); [right|]; exact H.
Qed.

Lemma oldNames_incl (body lines : list string) (x : string) :
  (forall l, In l body -> In l lines) ->
  In x (oldNames body) -> In x (oldNames lines).
Proof.
  unfold oldNames; intros Hsub H.
  apply in_map_iff in H; destruct H as (l & <- & Hl).
  apply filter_In in Hl; destruct Hl as [Hl R].
  apply in_map_iff; exists l; split; [reflexivity|].
  apply filter_In; auto.
Qed.

Lemma entriesOf_paths (p : string) (lines : list string)
  (rs : list (option LogEntry * list string)) (cp : string) :
  (forall h body l, In (h, body) rs -> In l body -> In l lines) ->
  cp = p \/ In cp (oldNames lines) ->
  Forall (fun e => Path e = p \/ In (Path e) (oldNames lines)) (entriesOf cp rs).
Proof.
  revert cp; induction rs as [|[[hdr|] body] rs IH]; intros cp Hsub Hcp; simpl.
  - constructor.
  - constructor; [exact Hcp|].
    apply IH; [intros; eapply Hsub; [right|]; eauto|].
    unfold cursorAfterSection, settle.
    destruct (String.eqb (fold_left (noteRename cp) body "") "") eqn:E; [exact Hcp|].
    destruct (noted_name cp body "") as [N|N].
    + rewrite N in E; discriminate.
    + right; apply (oldNames_incl body); [|exact N].
      intros l Hl; apply (Hsub (Some hdr) body); [left; reflexivity|exact Hl].
  - apply IH; [intros; eapply Hsub; [right|]; eauto|exact Hcp].
Qed.

(** X2.  No path is made up: every entry of a history records the queried
    path (without its leading slash) or the old name of a rename line of
    the tool's output. *)
Theorem history_paths_come_from_output
  (exec : string -> list string -> ExecResult) (repoPath rev path out : string)
  (es : list FileHistoryEntry) :
  outcome (exec repoPath (historyQuery rev path)) = Ok out ->
  value (GetFileHistory exec repoPath rev path) = Ok es ->
  Forall (fun e => Path e = strings.TrimPrefix path "/"
                   \/ In (Path e) (oldNames (strings.Split out NL))) es.
Proof.
  intros Hout; rewrite history_as_records, Hout; intros [= <-].
  apply entriesOf_paths; [apply group_lines|left; reflexivity].
Qed.

Lemma history_paths_come_from_output_witness :
  Forall (fun e => Path e = strings.TrimPrefix Scenario.newPath "/"
                   \/ In (Path e)
                        (oldNames (strings.Split
                                     (strings.TrimSpace Scenario.historyOutput) NL)))
    (parseFileHistory Scenario.newPath Scenario.historyLines).
Proof.
  apply (history_paths_come_from_output Scenario.scenarioGit Scenario.repo "HEAD"
           Scenario.newPath (strings.TrimSpace Scenario.historyOutput)).
  - vm_compute; reflexivity.
  - vm_compute; reflexivity.
Defined.

(** X3.  A file that the output never renames keeps its name: when no line
    of the output renames to the queried path, every entry of the history
    records the queried path. *)
Theorem history_without_rename_keeps_path
  (exec : string -> list string -> ExecResult) (repoPath rev path out : string)
  (es : list FileHistoryEntry) :
  outcome (exec repoPath (historyQuery rev path)) = Ok out ->
  Forall (fun l => renamesTo (strings.TrimPrefix path "/") l = false)
         (strings.Split out NL) ->
  value (GetFileHistory exec repoPath rev path) = Ok es ->
  Forall (fun e => Path e = strings.TrimPrefix path "/") es.
Proof.
  intros Hout Hlines; unfold value; rewrite GetFileHistory_run, Hout; simpl.
  destruct (String.eqb out ""); intros [= <-]; [constructor|].
  apply steady_parse, Hlines.
Qed.

Lemma history_without_rename_keeps_path_witness :
  Forall (fun e => Path e = strings.TrimPrefix Scenario.oldPath "/")
    (parseFileHistory Scenario.oldPath Scenario.olderLines).
Proof.
  apply (history_without_rename_keeps_path
           (Scenario.answer Scenario.olderLines) Scenario.repo "" Scenario.oldPath
           (strings.TrimSpace
              (Scenario.line (strings.Join Scenario.olderLines (String NL ""))))).
  - vm_compute; reflexivity.
  - vm_compute; repeat constructor.
  - vm_compute; reflexivity.
Defined.

End RecordsFold.

(** ** The commit log *)

Section CommitLog.

Import git Output.

(** X4.  The commit log is the output read line by line: [GetLog] returns
    the entries of the lines that have exactly four fields, in the order
    of the lines, and nothing for any other line; an empty output gives an
    empty log and an error of the tool is passed on. *)
Theorem log_is_lines_in_order
  (exec : string -> list string -> ExecResult) (repoPath rev : string) :
  value (GetLog exec repoPath rev)
  = match outcome (exec repoPath (logQuery rev)) with
    | Ok out =>
        Ok (flat_map (fun l => optionList (logEntryOf l)) (strings.Split out NL))
    | Err err => Err err
    end.
Proof.
  unfold value; rewrite GetLog_run; simpl.
  destruct (outcome _) as [out|err]; [|reflexivity]; simpl.
  destruct (String.eqb out "") eqn:E.
  - apply String.eqb_eq in E; subst out; reflexivity.
  - rewrite parseLog_flat_map; reflexivity.
Qed.

End CommitLog.

(** ** Trimmed output *)

Section Trimmed.

Import git Output Blank.

Lemma trimLeading_settled (fwd : bool) (s : string) :
  startsSpace fwd s = false -> strings.trimLeading fwd s = s.
Proof.
  destruct s as [|c1 [|c2 [|c3 r3]]]; simpl; intros H;
    repeat match goal with
           | H : _ || _ = false |- _ => apply orb_false_elim in H; destruct H
           end;
    repeat match goal with
           | H : ?b = false |- context [?b] => rewrite H
           end; reflexivity.
Qed.

Lemma startsSpace_trimLeading (fwd : bool) (n : nat) (s : string) :
  String.length s <= n -> startsSpace fwd (strings.trimLeading fwd s) = false.
Proof.
  revert s; induction n as [|n IH]; intros s Hn.
  - destruct s; [reflexivity|simpl in Hn; lia].
  - destruct s as [|c1 r1]; [reflexivity|].
    simpl in Hn; simpl strings.trimLeading.
    destruct (strings.asciiSpace c1) eqn:A1; [apply IH; lia|].
    destruct r1 as [|c2 r2]; [simpl; rewrite A1; reflexivity|].
    simpl in Hn.
    destruct (if fwd then strings.space2 c1 c2 else strings.space2 c2 c1) eqn:A2;
      [apply IH; lia|].
    destruct r2 as [|c3 r3]; [simpl; rewrite A1, A2; reflexivity|].
    simpl in Hn.
    destruct (if fwd then strings.space3 c1 c2 c3 else strings.space3 c3 c2 c1) eqn:A3;
      [apply IH; lia|].
    simpl; rewrite A1, A2, A3; reflexivity.
Qed.

Lemma startsSpace_prefix (fwd : bool) (t u : string) :
  startsSpace fwd (t ++ u) = false -> startsSpace fwd t = false.
Proof.
  destruct t as [|c1 [|c2 [|c3 r3]]]; simpl; intros H; try reflexivity;
    repeat match goal with
           | H : _ || _ = false |- _ => apply orb_false_elim in H; destruct H
           end;
    repeat match goal with
           | H : ?b = false |- context [?b] => rewrite H
           end; reflexivity.
Qed.

Lemma trimLeading_suffix (fwd : bool) (n : nat) (s : string) :
  String.length s <= n -> exists x, s = (x ++ strings.trimLeading fwd s)%string.
Proof.
  revert s; induction n as [|n IH]; intros s Hn.
  - destruct s; [exists ""; reflexivity|simpl in Hn; lia].
  - destruct s as [|c1 r1]; [exists ""; reflexivity|].
    simpl in Hn; simpl strings.trimLeading.
    destruct (strings.asciiSpace c1).
    { destruct (IH r1) as (x & E); [lia|].
      exists (String c1 x); simpl; rewrite <- E; reflexivity. }
    destruct r1 as [|c2 r2]; [exists ""; reflexivity|].
    simpl in Hn.
    destruct (if fwd then strings.space2 c1 c2 else strings.space2 c2 c1).
    { destruct (IH r2) as (x & E); [lia|].
      exists (String c1 (String c2 x)); simpl; rewrite <- E; reflexivity. }
    destruct r2 as [|c3 r3]; [exists ""; reflexivity|].
    simpl in Hn.
    destruct (if fwd then strings.space3 c1 c2 c3 else strings.space3 c3 c2 c1).
    { destruct (IH r3) as (x & E); [lia|].
      exists (String c1 (String c2 (String c3 x))); simpl; rewrite <- E; reflexivity. }
    exists ""; reflexivity.
Qed.

Lemma list_ascii_app (a b : string) :
  list_ascii_of_string (a ++ b) = (list_ascii_of_string a ++ list_ascii_of_string b)%list.
Proof. induction a as [|c a IH]; simpl; [reflexivity|rewrite IH; reflexivity]. Qed.

Lemma string_of_list_app (a b : list ascii) :
  string_of_list_ascii (a ++ b)
  = (string_of_list_ascii a ++ string_of_list_ascii b)%string.
Proof. induction a as [|c a IH]; simpl; [reflexivity|rewrite IH; reflexivity]. Qed.

Lemma reverse_app (a b : string) :
  strings.reverse (a ++ b) = (strings.reverse b ++ strings.reverse a)%string.
Proof.
  unfold strings.reverse.
  rewrite list_ascii_app, rev_app_distr, string_of_list_app; reflexivity.
Qed.

Lemma reverse_reverse (s : string) : strings.reverse (strings.reverse s) = s.
Proof.
  unfold strings.reverse.
  rewrite list_ascii_of_string_of_list_ascii, rev_involutive.
  apply string_of_list_ascii_of_string.
Qed.

Lemma TrimSpace_idempotent (s : string) :
  strings.TrimSpace (strings.TrimSpace s) = strings.TrimSpace s.
Proof.
  unfold strings.TrimSpace.
  set (L := strings.trimLeading true s).
  set (R := strings.trimLeading false (strings.reverse L)).
  assert (startsSpace true L = false) as HL
    by (apply (startsSpace_trimLeading true (String.length s)); lia).
  assert (startsSpace false R = false) as HR
    by (apply (startsSpace_trimLeading false (String.length (strings.reverse L))); lia).
  destruct (trimLeading_suffix false (String.length (strings.reverse L))
              (strings.reverse L)) as (x & E); [lia|].
  fold R in E.
  assert (L = (strings.reverse R ++ strings.reverse x)%string) as EL.
  { rewrite <- reverse_app, <- E, reverse_reverse; reflexivity. }
  rewrite EL in HL; apply startsSpace_prefix in HL.
  rewrite (trimLeading_settled true _ HL), reverse_reverse.
  rewrite (trimLeading_settled false _ HR); reflexivity.
Qed.

(** X5.  What [Command] returns on success is trimmed: trimming it again
    changes nothing, so it is blank only when it is empty.  The tests
    [out == ""] of the callers and the test on the trimmed diff in the
    fallback therefore decide the same thing. *)
Theorem command_output_is_trimmed
  (exec : string -> list string -> ExecResult) (repoPath : string)
  (args : list string) (out : string) :
  value (Command exec repoPath args) = Ok out ->
  strings.TrimSpace out = out
  /\ (String.eqb (strings.TrimSpace out) "" = String.eqb out "").
Proof.
  unfold value; rewrite Command_run; simpl; unfold outcome.
  destruct (run_err (exec repoPath args)) as [err|].
  - destruct (0 <? String.length (stderr (exec repoPath args))); discriminate.
  - intros [= <-].
    rewrite TrimSpace_idempotent; split; reflexivity.
Qed.

Lemma command_output_is_trimmed_witness :
  strings.TrimSpace (strings.TrimSpace Scenario.diffH2) = strings.TrimSpace Scenario.diffH2
  /\ (String.eqb (strings.TrimSpace (strings.TrimSpace Scenario.diffH2)) ""
      = String.eqb (strings.TrimSpace Scenario.diffH2) "").
Proof.
  apply (command_output_is_trimmed Scenario.scenarioGit Scenario.repo
           ["show"; Scenario.H2; "--"; Scenario.oldPath]).
  vm_compute; reflexivity.
Defined.

End Trimmed.

(** ** Cleaned paths *)

Section Cleaned.

Import Output main Elements.

Lemma Split_free (sep : ascii) (s : string) :
  Forall (fun e => free sep e = true) (strings.Split s sep).
Proof.
  induction s as [|c s IH]; simpl; [repeat constructor|].
  destruct (Ascii.eqb c sep) eqn:E; [constructor; [reflexivity|exact IH]|].
  destruct (strings.Split s sep) as [|piece pieces].
  - repeat constructor; simpl; rewrite E; reflexivity.
  - inversion IH; subst; constructor; [simpl; rewrite E; assumption|assumption].
Qed.

Lemma Split_nonempty (sep : ascii) (s : string) : strings.Split s sep <> [].
Proof.
  destruct s as [|c s]; simpl; [discriminate|].
  destruct (Ascii.eqb c sep); [discriminate|].
  destruct (strings.Split s sep); discriminate.
Qed.

Lemma Split_free_app (sep : ascii) (e rest : string) :
  free sep e = true ->
  strings.Split (e ++ String sep rest) sep = e :: strings.Split rest sep.
Proof.
  induction e as [|c e IH]; simpl; intros H.
  - rewrite Ascii.eqb_refl; reflexivity.
  - apply andb_prop in H; destruct H as [N H].
    apply negb_true_iff in N; rewrite N, (IH H); reflexivity.
Qed.

Lemma Split_free_whole (sep : ascii) (e : string) :
  free sep e = true -> strings.Split e sep = [e].
Proof.
  induction e as [|c e IH]; simpl; intros H; [reflexivity|].
  apply andb_prop in H; destruct H as [N H].
  apply negb_true_iff in N; rewrite N, (IH H); reflexivity.
Qed.

Lemma Split_Join (elems : list string) :
  elems <> [] ->
  Forall (fun e => free SLASH e = true) elems ->
  strings.Split (strings.Join elems "/") SLASH = elems.
Proof.
  induction elems as [|e [|e' rest] IH]; intros Hne H; [contradiction| |].
  - inversion H; subst; apply Split_free_whole; assumption.
  - inversion H as [|? ? He Hrest]; subst.
    change (strings.Join (e :: e' :: rest) "/")
      with (e ++ String SLASH (strings.Join (e' :: rest) "/"))%string.
    rewrite (Split_free_app _ _ _ He), IH; [reflexivity|discriminate|exact Hrest].
Qed.

(** The elements written by the loop of [filepath.Clean]: kept [..]
    elements first, and none at all in a rooted path, then real ones. *)
Lemma cleanElems_shape (rooted : bool) (elems out : list string) (k : nat)
  (reals : list string) :
  Forall (fun e => free SLASH e = true) elems ->
  out = (reals ++ repeat ".." k)%list ->
  Forall real reals ->
  (rooted = true -> k = 0) ->
  exists k' reals',
    filepath.cleanElems rooted elems out = (reals' ++ repeat ".." k')%list
    /\ Forall real reals'
    /\ (rooted = true -> k' = 0).
Proof.
  intros Hel; revert out k reals.
  induction Hel as [|e rest He _ IH]; intros out k reals -> Hr Hk; simpl.
  - eauto.
  - destruct (String.eqb e "") eqn:E0; [eapply IH; eauto|].
    destruct (String.eqb e ".") eqn:E1; [eapply IH; eauto|].
    destruct (String.eqb e "..") eqn:E2.
    + destruct reals as [|top reals]; simpl.
      * destruct k as [|k]; simpl.
        { destruct rooted.
          - apply (IH [] 0 []); auto.
          - apply (IH [".."] 1 []); [reflexivity|constructor|discriminate]. }
        { apply (IH (".." :: ".." :: repeat ".." k) (S (S k)) []);
            [reflexivity|constructor|].
          intros R; specialize (Hk R); discriminate. }
      * inversion Hr as [|? ? Htop Hreals]; subst.
        destruct Htop as (_ & _ & Hdd & _).
        apply String.eqb_neq in Hdd; rewrite Hdd.
        apply (IH _ k reals); auto.
    + apply (IH _ k (e :: reals)); [reflexivity| |exact Hk].
      constructor; [|exact Hr].
      apply String.eqb_neq in E0, E1, E2; repeat split; assumption.
Qed.

Lemma Join_cons (e : string) (rest : list string) :
  rest <> [] ->
  strings.Join (e :: rest) "/" = (e ++ String SLASH (strings.Join rest "/"))%string.
Proof. destruct rest; [contradiction|reflexivity]. Qed.

Lemma Forall_real_rev (l : list string) : Forall real l -> Forall real (rev l).
Proof. intros H; apply Forall_forall; intros x Hx; apply in_rev in Hx.
       rewrite Forall_forall in H; auto. Qed.

(** The forms of a cleaned path: the dot; a slash before real elements; or,
    not rooted, some [..] elements before real elements. *)
Lemma Clean_forms (path : string) :
  filepath.Clean path = "."
  \/ (exists reals,
         Forall real reals
         /\ filepath.Clean path = ("/" ++ strings.Join reals "/")%string)
  \/ (exists k reals,
         Forall real reals /\ (repeat ".." k ++ reals)%list <> []
         /\ filepath.Clean path = strings.Join (repeat ".." k ++ reals) "/").
Proof.
  unfold filepath.Clean.
  destruct (String.eqb path ""); [left; reflexivity|].
  destruct (cleanElems_shape (strings.HasPrefix path "/")
              (strings.Split path SLASH) [] 0 [])
    as (k & reals & E & Hr & Hk);
    [apply Split_free|reflexivity|constructor|reflexivity|].
  rewrite E, rev_app_distr, rev_repeat.
  destruct (strings.HasPrefix path "/").
  - right; left; exists (rev reals).
    rewrite (Hk eq_refl); simpl; split; [apply Forall_real_rev, Hr|reflexivity].
  - destruct (String.eqb (strings.Join (repeat ".." k ++ rev reals) "/") "") eqn:J;
      [left; reflexivity|].
    right; right; exists k, (rev reals).
    split; [apply Forall_real_rev, Hr|split; [|reflexivity]].
    intros N; rewrite N in J; discriminate.
Qed.

Lemma real_free (reals : list string) :
  Forall real reals -> Forall (fun e => free SLASH e = true) reals.
Proof. apply Forall_impl; intros e (_ & _ & _ & H); exact H. Qed.

Lemma real_plain (reals : list string) :
  Forall real reals -> Forall (fun e => e <> ".." /\ e <> ".") reals.
Proof. apply Forall_impl; intros e (_ & H1 & H2 & _); auto. Qed.

Lemma HasPrefix_empty (s : string) : strings.HasPrefix s "" = true.
Proof. destruct s; reflexivity. Qed.

Lemma append_empty_r (s : string) : (s ++ "")%string = s.
Proof. induction s as [|c s IH]; simpl; [reflexivity|rewrite IH; reflexivity]. Qed.

Lemma real_head_no_dot_slash (e : string) (rest : string) :
  real e -> strings.HasPrefix (e ++ rest) "./" = false.
Proof.
  intros (H0 & H1 & _ & Hf).
  destruct e as [|c [|c' e]]; [contradiction H0; reflexivity| |].
  - simpl; destruct (Ascii.eqb c ".") eqn:E; [|reflexivity].
    apply Ascii.eqb_eq in E; subst; contradiction H1; reflexivity.
  - simpl in *. destruct (Ascii.eqb c "."); [|reflexivity]; simpl.
    apply andb_prop in Hf; destruct Hf as [_ Hf].
    apply andb_prop in Hf; destruct Hf as [Hf _].
    apply negb_true_iff in Hf; unfold SLASH in Hf; rewrite Hf; reflexivity.
Qed.

(** X6.  An accepted path does not climb: apart from the path [..] itself,
    no element of a path that [normalizeRepoRelativePath] accepts is the
    parent directory or the current directory. *)
Theorem accepted_path_has_no_parent_element (repoPath requestedPath path : string) :
  normalizeRepoRelativePath repoPath requestedPath = (path, true) ->
  path = ".."
  \/ Forall (fun e => e <> ".." /\ e <> ".") (strings.Split path SLASH).
Proof.
  unfold normalizeRepoRelativePath.
  destruct (String.eqb (strings.TrimPrefix (strings.TrimSpace requestedPath) "/") "");
    [discriminate|].
  match goal with
  | |- context [filepath.Clean ?q] => generalize q
  end.
  intros q; unfold filepath.ToSlash.
  destruct (Clean_forms q) as [E|[(reals & Hr & E)|(k & reals & Hr & Hne & E)]];
    rewrite E.
  - discriminate.
  - change (strings.TrimPrefix ("/" ++ strings.Join reals "/") "./")
      with ("/" ++ strings.Join reals "/")%string.
    destruct (_ || _); [discriminate|]; intros [= <-]; right.
    change (strings.Split (String "/" (strings.Join reals "/")) SLASH)
      with ("" :: strings.Split (strings.Join reals "/") SLASH).
    constructor; [split; discriminate|].
    destruct reals as [|e reals]; [repeat constructor; discriminate|].
    rewrite Split_Join; [apply real_plain, Hr|discriminate|apply real_free, Hr].
  - destruct k as [|k]; cbn [repeat Datatypes.app] in *.
    + destruct reals as [|e reals]; [contradiction Hne; reflexivity|].
      assert (strings.HasPrefix (strings.Join (e :: reals) "/") "./" = false) as P.
      { inversion Hr; subst.
        destruct reals;
          [change (strings.Join [e] "/") with e; rewrite <- (append_empty_r e)
          |rewrite Join_cons by discriminate];
          apply real_head_no_dot_slash; assumption. }
      unfold strings.TrimPrefix at 1 2 3 4; rewrite P.
      destruct (_ || _); [discriminate|]; intros H; right.
      assert (path = strings.Join (e :: reals) "/") as ->
        by (injection H as H'; symmetry; exact H').
      rewrite Split_Join; [apply real_plain, Hr|discriminate|apply real_free, Hr].
    + destruct (repeat ".." k ++ reals)%list as [|e rest] eqn:R.
      * simpl; intros [= <-]; left; reflexivity.
      * rewrite Join_cons by discriminate.
        simpl; rewrite HasPrefix_empty; discriminate.
Qed.

Lemma accepted_path_has_no_parent_element_witness :
  "a/c" = ".."
  \/ Forall (fun e => e <> ".." /\ e <> ".") (strings.Split "a/c" SLASH).
Proof.
  apply (accepted_path_has_no_parent_element Scenario.repo " /a/./b/../c//" "a/c").
  vm_compute; reflexivity.
Defined.

Lemma HasPrefix_app (a b : string) : strings.HasPrefix (a ++ b) a = true.
Proof.
  induction a as [|c a IH]; simpl; [apply HasPrefix_empty|].
  rewrite Ascii.eqb_refl, IH; reflexivity.
Qed.

Lemma drop_app (a b : string) : strings.drop (String.length a) (a ++ b) = b.
Proof. induction a as [|c a IH]; simpl; [reflexivity|exact IH]. Qed.

Lemma TrimPrefix_app (a b : string) : strings.TrimPrefix (a ++ b) a = b.
Proof. unfold strings.TrimPrefix; rewrite HasPrefix_app; apply drop_app. Qed.

Lemma append_assoc (a b c : string) : ((a ++ b) ++ c = a ++ (b ++ c))%string.
Proof. induction a as [|x a IH]; simpl; [reflexivity|rewrite IH; reflexivity]. Qed.

(** X7.  A request that carries the absolute path of the repository in
    front is taken below it: for a rooted, clean repository path and a
    request without white space around it, the answer is that of the end
    of the function on what follows the repository path and its slash. *)
Theorem request_with_repository_prefix (repoPath rel : string) :
  strings.HasPrefix repoPath "/" = true ->
  filepath.Clean repoPath = repoPath ->
  strings.TrimSpace (repoPath ++ "/" ++ rel) = (repoPath ++ "/" ++ rel)%string ->
  normalizeRepoRelativePath repoPath (repoPath ++ "/" ++ rel) = finish rel.
Proof.
  intros Hroot Hclean Htrim.
  unfold normalizeRepoRelativePath; rewrite Htrim, Hclean.
  destruct repoPath as [|c rp]; [discriminate|].
  simpl in Hroot; apply andb_prop in Hroot; destruct Hroot as [Hc _].
  apply Ascii.eqb_eq in Hc; subst c.
  change (String "/" rp ++ "/" ++ rel)%string
    with ("/" ++ (rp ++ "/" ++ rel))%string.
  rewrite (TrimPrefix_app "/").
  assert (String.eqb (rp ++ "/" ++ rel) "" = false) as Hne
    by (destruct rp; reflexivity).
  rewrite Hne; unfold filepath.ToSlash at 1.
  change ("/" ++ (rp ++ "/" ++ rel))%string
    with (String "/" rp ++ ("/" ++ rel))%string.
  rewrite <- append_assoc, HasPrefix_app, TrimPrefix_app; reflexivity.
Qed.

Lemma request_with_repository_prefix_witness :
  normalizeRepoRelativePath "/Users/andre.bering/dev/locLogger"
    ("/Users/andre.bering/dev/locLogger" ++ "/" ++ "Android/androidApp/MainActivity.kt")
  = finish "Android/androidApp/MainActivity.kt".
Proof.
  apply (request_with_repository_prefix "/Users/andre.bering/dev/locLogger"
           "Android/androidApp/MainActivity.kt").
  - reflexivity.
  - vm_compute; reflexivity.
  - vm_compute; reflexivity.
Defined.

End Cleaned.

(** ** The tree listing *)

Section TreeListing.

Import Output git git_tree.

Lemma ListTree_run (exec : string -> list string -> ExecResult)
  (repoPath rev path : string) (log : list Invocation) :
  ListTree exec repoPath rev path log
  = (match outcome
             (exec repoPath
                ["ls-tree"; if String.eqb rev "" then "HEAD" else rev; treeArg path])
     with
     | Err err => Err err
     | Ok out =>
         if String.eqb out "" then Ok []
         else Ok (fold_left (treeStep (treePrefix path)) (strings.Split out NL) [])
     end,
     (log ++ [(repoPath,
               ["ls-tree"; if String.eqb rev "" then "HEAD" else rev; treeArg path])])%list).
Proof.
  unfold ListTree, treeArg, treePrefix, listed.
  destruct (String.eqb path "") eqn:P;
    [apply String.eqb_eq in P; subst path|]; simpl;
    unfold bind; rewrite Command_run;
    (destruct (outcome _) as [out|err]; [|reflexivity]);
    destruct (String.eqb out ""); reflexivity.
Qed.

Lemma plain_byte (c : ascii) :
  spaceByte c = false ->
  strings.asciiSpace c = false
  /\ (forall c2, strings.space2 c c2 = false)
  /\ (forall c2 c3, strings.space3 c c2 c3 = false).
Proof.
  intros H; split; [|split].
  - unfold spaceByte in H; apply orb_false_elim in H; tauto.
  - intros c2; destruct (strings.space2 c c2) eqn:X; [|reflexivity].
    apply space2_bytes in X; destruct X as [X _]; congruence.
  - intros c2 c3; destruct (strings.space3 c c2 c3) eqn:X; [|reflexivity].
    apply space3_bytes in X; destruct X as [X _]; congruence.
Qed.

Lemma fieldsFrom_plain (c : ascii) (r : string) (cur : list ascii) :
  spaceByte c = false ->
  fieldsFrom (String c r) cur = fieldsFrom r (c :: cur).
Proof.
  intros H; destruct (plain_byte c H) as (A & S2 & S3).
  destruct r as [|c2 [|c3 r3]]; simpl; rewrite A, ?S2, ?S3; reflexivity.
Qed.

Lemma fieldsFrom_word (w s : string) (cur : list ascii) :
  Forall (fun c => spaceByte c = false) (list_ascii_of_string w) ->
  fieldsFrom (w ++ s) cur = fieldsFrom s (rev (list_ascii_of_string w) ++ cur)%list.
Proof.
  revert cur; induction w as [|c w IH]; intros cur H; [reflexivity|].
  inversion H as [|? ? Hc Hw]; subst.
  change (String c w ++ s)%string with (String c (w ++ s)).
  rewrite (fieldsFrom_plain _ _ _ Hc), (IH _ Hw); simpl.
  rewrite <- app_assoc; reflexivity.
Qed.

Lemma emit_word (w : string) (rest : list string) :
  w <> "" -> emit (rev (list_ascii_of_string w) ++ []) rest = w :: rest.
Proof.
  intros H; rewrite app_nil_r; unfold emit.
  destruct (rev (list_ascii_of_string w)) as [|x l] eqn:E.
  - apply (f_equal (@rev ascii)) in E; rewrite rev_involutive in E; simpl in E.
    destruct w; [contradiction H; reflexivity|discriminate].
  - rewrite <- E, rev_involutive, string_of_list_ascii_of_string; reflexivity.
Qed.

Lemma Fields_word_then (w : string) (sep : ascii) (s : string) :
  word w -> strings.asciiSpace sep = true ->
  Fields (w ++ String sep s) = w :: Fields s.
Proof.
  intros [Hne Hw] Hsep; unfold Fields.
  rewrite (fieldsFrom_word _ _ _ Hw); simpl; rewrite Hsep.
  apply emit_word, Hne.
Qed.

Lemma Fields_word (w : string) : word w -> Fields w = [w].
Proof.
  intros [Hne Hw]; unfold Fields.
  rewrite <- (append_empty_r w) at 1.
  rewrite (fieldsFrom_word _ _ _ Hw); simpl.
  apply emit_word, Hne.
Qed.

Lemma Fields_words (ws : list string) :
  Forall word ws -> Fields (strings.Join ws " ") = ws.
Proof.
  induction ws as [|w [|w' ws] IH]; intros H; [reflexivity| |].
  - inversion H; subst; apply Fields_word; assumption.
  - inversion H as [|? ? Hw Hrest]; subst.
    change (strings.Join (w :: w' :: ws) " ")
      with (w ++ String " " (strings.Join (w' :: ws) " "))%string.
    rewrite (Fields_word_then w " "%char _ Hw eq_refl), (IH Hrest); reflexivity.
Qed.

Lemma Fields_treeLine (mode type hash : string) (nameWords : list string) :
  word mode -> word type -> word hash -> Forall word nameWords ->
  Fields (treeLine mode type hash nameWords) = mode :: type :: hash :: nameWords.
Proof.
  intros Hm Ht Hh Hn; unfold treeLine.
  change (mode ++ " " ++ type ++ " " ++ hash
          ++ String TAB (strings.Join nameWords " "))%string
    with (mode ++ String " " (type ++ String " "
            (hash ++ String TAB (strings.Join nameWords " "))))%string.
  rewrite (Fields_word_then mode " "%char _ Hm eq_refl),
    (Fields_word_then type " "%char _ Ht eq_refl),
    (Fields_word_then hash TAB _ Hh eq_refl), (Fields_words _ Hn); reflexivity.
Qed.

Lemma treeStep_item (path : string) (acc : list TreeEntry) (it : Item) :
  itemOk it ->
  treeStep (treePrefix path) acc (lineOf it) = (acc ++ [entryOfItem path it])%list.
Proof.
  destruct it as [[[mode type] hash] nameWords]; intros (Hm & Ht & Hh & Hne & Hn).
  unfold treeStep, lineOf; rewrite (Fields_treeLine _ _ _ _ Hm Ht Hh Hn).
  destruct nameWords as [|w ws]; [contradiction Hne; reflexivity|reflexivity].
Qed.

Lemma fold_treeStep_items (path : string) (items : list Item) (acc : list TreeEntry) :
  Forall itemOk items ->
  fold_left (treeStep (treePrefix path)) (map lineOf items) acc
  = (acc ++ map (entryOfItem path) items)%list.
Proof.
  intros H; revert acc; induction H as [|it items Hit _ IH]; intros acc; simpl.
  - rewrite app_nil_r; reflexivity.
  - rewrite (treeStep_item _ _ _ Hit), IH, <- app_assoc; reflexivity.
Qed.

(** X8.  The listing reads back what the tool prints: when every line of
    the output is a line of [git ls-tree] (mode, type and hash separated by
    a space, a tab, and a name of one or more words separated by single
    spaces), [ListTree] returns, line by line, the entry with these mode,
    type, hash and name, the name being also given without the listed
    directory in front. *)
Theorem tree_listing_reads_lines
  (exec : string -> list string -> ExecResult) (repoPath rev path out : string)
  (items : list Item) :
  outcome (exec repoPath
             ["ls-tree"; if String.eqb rev "" then "HEAD" else rev; treeArg path])
  = Ok out ->
  strings.Split out NL = map lineOf items ->
  Forall itemOk items ->
  value (ListTree exec repoPath rev path) = Ok (map (entryOfItem path) items).
Proof.
  intros Hout Hsplit Hitems.
  unfold value; rewrite ListTree_run, Hout; simpl.
  destruct (String.eqb out "") eqn:E.
  - apply String.eqb_eq in E; subst out; simpl in Hsplit.
    destruct items as [|it [|? ?]]; try discriminate.
    inversion Hitems as [|? ? Hit _]; subst.
    destruct it as [[[mode type] hash] nameWords].
    destruct Hit as ((Hm & _) & _).
    injection Hsplit as Hs; unfold treeLine in Hs.
    destruct mode; [contradiction Hm; reflexivity|discriminate].
  - rewrite Hsplit, (fold_treeStep_items _ _ _ Hitems); reflexivity.
Qed.

End TreeListing.

Section TreeListingMore.

Import Output git git_tree.

Lemma tree_listing_reads_lines_witness :
  value (ListTree (Scenario.answer (map lineOf Samples.items)) Scenario.repo "" "/a")
  = Ok (map (entryOfItem "/a") Samples.items).
Proof.
  apply (tree_listing_reads_lines (Scenario.answer (map lineOf Samples.items))
           Scenario.repo "" "/a"
           (strings.TrimSpace
              (Scenario.line
                 (strings.Join (map lineOf Samples.items) (String NL ""))))).
  - vm_compute; reflexivity.
  - vm_compute; reflexivity.
  - repeat constructor; discriminate.
Defined.

Lemma length_append (a b : string) :
  String.length (a ++ b) = String.length a + String.length b.
Proof. induction a as [|c a IH]; simpl; [reflexivity|rewrite IH; reflexivity]. Qed.

Lemma HasSuffix_app (a b : string) : HasSuffix (a ++ b) b = true.
Proof.
  unfold HasSuffix; rewrite length_append.
  replace (String.length a + String.length b - String.length b) with (String.length a)
    by lia.
  rewrite drop_app, String.eqb_refl, andb_true_r.
  apply Nat.leb_le; lia.
Qed.

(** X9.  What [ListTree] asks the tool: one invocation, [ls-tree] with the
    revision ([HEAD] when none is given) and one directory argument.  The
    argument is the dot for the empty path; for any other path it ends in
    a slash, except that the path [/] alone leaves the empty string. *)
Theorem tree_listing_argument
  (exec : string -> list string -> ExecResult) (repoPath rev path : string) :
  calls (ListTree exec repoPath rev path)
  = [(repoPath,
      ["ls-tree"; if String.eqb rev "" then "HEAD" else rev; treeArg path])]
  /\ (path = "" -> treeArg path = ".")
  /\ (path = "/" -> treeArg path = "")
  /\ (path <> "" -> path <> "/" -> HasSuffix (treeArg path) "/" = true).
Proof.
  split; [unfold calls; rewrite ListTree_run; reflexivity|].
  split; [intros ->; reflexivity|].
  split; [intros ->; reflexivity|].
  intros H0 H1; unfold treeArg, listed.
  apply String.eqb_neq in H0; rewrite H0.
  destruct (String.eqb (strings.TrimPrefix path "/") "") eqn:E.
  - apply String.eqb_eq in E.
    unfold strings.TrimPrefix in E.
    destruct path as [|c [|c' p]]; simpl in E.
    + discriminate.
    + destruct (Ascii.eqb c "/") eqn:C; simpl in E; [|discriminate].
      apply Ascii.eqb_eq in C; subst; contradiction H1; reflexivity.
    + destruct (Ascii.eqb c "/"); simpl in E; discriminate.
  - simpl.
    destruct (HasSuffix (strings.TrimPrefix path "/") "/") eqn:S; simpl;
      [exact S|apply HasSuffix_app].
Qed.

End TreeListingMore.

(** ** The configuration at start *)

Section Startup.

Import git main startup.

Variable world : World.
Variable exec : string -> list string -> ExecResult.

Lemma ValidateRepository_run (repoPath : string) (log : list Invocation) :
  git_repo.ValidateRepository exec repoPath log
  = (match outcome (exec repoPath ["rev-parse"; "--is-inside-work-tree"]) with
     | Err err => Some err
     | Ok out =>
         if String.eqb out "true" then None
         else Some (repoPath ++ " is not a git repository")%string
     end,
     (log ++ [checkOf repoPath])%list).
Proof.
  unfold git_repo.ValidateRepository, bind; rewrite Command_run.
  destruct (outcome _) as [out|err]; [|reflexivity].
  destruct (String.eqb out "true"); reflexivity.
Qed.

Lemma ValidateRepository_passes (repoPath : string) (log : list Invocation) :
  fst (git_repo.ValidateRepository exec repoPath log) = None ->
  outcome (exec repoPath ["rev-parse"; "--is-inside-work-tree"]) = Ok "true".
Proof.
  rewrite ValidateRepository_run; simpl.
  destruct (outcome _) as [out|err]; [|discriminate].
  destruct (String.eqb out "true") eqn:E; [|discriminate].
  apply String.eqb_eq in E; subst; reflexivity.
Qed.

Lemma lookupRepo_app (l1 l2 : list (string * string)) (n : string) :
  lookupRepo (l1 ++ l2) n
  = match lookupRepo l1 n with
    | Some p => Some p
    | None => lookupRepo l2 n
    end.
Proof.
  induction l1 as [|[k p] l1 IH]; simpl; [reflexivity|].
  destruct (String.eqb k n); [reflexivity|exact IH].
Qed.

Lemma lookupRepo_absent (l : list (string * string)) (n : string) :
  ~ In n (map fst l) -> lookupRepo l n = None.
Proof.
  induction l as [|[k p] l IH]; simpl; intros H; [reflexivity|].
  destruct (String.eqb k n) eqn:E.
  - apply String.eqb_eq in E; subst; contradiction H; left; reflexivity.
  - apply IH; intros N; apply H; right; exact N.
Qed.

Lemma lookupRepo_present (l : list (string * string)) (n p : string) :
  lookupRepo l n = Some p -> In n (map fst l).
Proof.
  induction l as [|[k q] l IH]; simpl; [discriminate|].
  destruct (String.eqb k n) eqn:E; [|intros H; right; exact (IH H)].
  apply String.eqb_eq in E; left; exact E.
Qed.

Lemma keys_rev_combine (ns ps : list string) :
  length ns = length ps ->
  map fst (rev (combine ns ps)) = rev ns.
Proof.
  intros H; rewrite map_rev; f_equal.
  revert ps H; induction ns as [|n ns IH]; intros [|p ps] H; simpl in *;
    try discriminate; [reflexivity|].
  rewrite IH; [reflexivity|lia].
Qed.

Lemma lookup_rev_combine (ns ps : list string) :
  NoDup ns -> length ns = length ps ->
  Forall2 (fun n p => lookupRepo (rev (combine ns ps)) n = Some p) ns ps.
Proof.
  intros Hnd; revert ps; induction Hnd as [|n ns Hn _ IH]; intros [|p ps] H;
    simpl in H; try discriminate; [constructor|].
  assert (length ns = length ps) as H' by lia.
  simpl; constructor.
  - rewrite lookupRepo_app, lookupRepo_absent; [simpl; rewrite String.eqb_refl; reflexivity|].
    rewrite (keys_rev_combine _ _ H'); intros N; apply in_rev in N; contradiction.
  - eapply Forall2_impl; [|apply (IH ps H')].
    intros a b E; simpl in E |- *; rewrite lookupRepo_app, E; reflexivity.
Qed.

(** What a successful run of the loop did. *)
Lemma loadRepos_ok (todo : list repoConfig) :
  forall repos names log repos' names' log',
    loadRepos world exec todo repos names log = (Ok (repos', names'), log') ->
    exists paths,
      Forall2 (accepted world exec) todo paths
      /\ repos' = (rev (combine (map nameOf todo) paths) ++ repos)%list
      /\ names' = (names ++ map nameOf todo)%list
      /\ log' = (log ++ map checkOf paths)%list
      /\ Forall (fun n => n <> "" /\ Contains n "/" = false
                          /\ lookupRepo repos n = None) (map nameOf todo)
      /\ NoDup (map nameOf todo).
Proof.
  induction todo as [|repo todo IH]; intros repos names log repos' names' log'; simpl.
  - intros [= <- <- <-]; exists []; simpl.
    rewrite !app_nil_r; repeat split; constructor.
  - fold (nameOf repo).
    destruct (String.eqb (nameOf repo) "") eqn:E0; [discriminate|].
    destruct (Contains (nameOf repo) "/") eqn:E1; [discriminate|].
    destruct (lookupRepo repos (nameOf repo)) eqn:E2; [discriminate|].
    destruct (String.eqb (strings.TrimSpace (Path repo)) "") eqn:E3; [discriminate|].
    destruct (Abs world (strings.TrimSpace (Path repo))) as [absPath|] eqn:E4;
      [|discriminate].
    destruct (StatIsDir world absPath) as [[|]|] eqn:E5; try discriminate.
    simpl; unfold bind.
    pose proof (ValidateRepository_passes absPath log) as V.
    rewrite ValidateRepository_run in V |- *; simpl in V.
    destruct (match outcome (exec absPath ["rev-parse"; "--is-inside-work-tree"]) with
              | Ok out =>
                  if String.eqb out "true" then None
                  else Some (absPath ++ " is not a git repository")%string
              | Err err => Some err
              end) eqn:E6; [discriminate|].
    specialize (V eq_refl).
    intros H; apply IH in H.
    destruct H as (paths & HF & -> & -> & -> & Hnames & Hnd).
    exists (absPath :: paths); simpl.
    assert (Forall (fun n => n <> nameOf repo /\ lookupRepo repos n = None)
              (map nameOf todo)) as Hfresh.
    { eapply Forall_impl; [|exact Hnames].
      intros n (_ & _ & L); simpl in L.
      destruct (String.eqb (nameOf repo) n) eqn:En; [discriminate|].
      apply String.eqb_neq in En; split; [congruence|exact L]. }
    repeat split.
    + constructor; [repeat split; assumption|exact HF].
    + rewrite <- !app_assoc; reflexivity.
    + rewrite <- app_assoc; reflexivity.
    + rewrite <- app_assoc; reflexivity.
    + constructor.
      * apply String.eqb_neq in E0; repeat split; assumption.
      * rewrite Forall_forall in Hnames, Hfresh |- *.
        intros n Hn; destruct (Hnames n Hn) as (A & B & _).
        destruct (Hfresh n Hn) as (_ & C); repeat split; assumption.
    + constructor; [|exact Hnd].
      intros N; rewrite Forall_forall in Hfresh.
      destruct (Hfresh _ N) as (C & _); contradiction C; reflexivity.
Qed.

Lemma loadApp_ok (a : app) :
  value (loadApp world exec) = Ok a ->
  exists cfg paths,
    loadConfig world (configPath world) = Ok cfg
    /\ Repos cfg <> []
    /\ Forall2 (accepted world exec) (Repos cfg) paths
    /\ repos a = rev (combine (map nameOf (Repos cfg)) paths)
    /\ repoNames a = map nameOf (Repos cfg)
    /\ defaultRepo a = nth 0 (repoNames a) ""
    /\ calls (loadApp world exec) = map checkOf paths
    /\ Forall (fun n => n <> "" /\ Contains n "/" = false) (map nameOf (Repos cfg))
    /\ NoDup (map nameOf (Repos cfg)).
Proof.
  unfold value, calls, loadApp; fold (configPath world).
  destruct (loadConfig world (configPath world)) as [cfg|err]; [|discriminate].
  unfold bind.
  destruct (loadRepos world exec (Repos cfg) [] [] []) as [[[repos' names']|err] log']
    eqn:E; [|discriminate].
  apply loadRepos_ok in E.
  destruct E as (paths & HF & -> & -> & -> & Hnames & Hnd).
  cbn [Datatypes.app].
  destruct (length (map nameOf (Repos cfg)) =? 0) eqn:L; [discriminate|].
  intros [= <-]; exists cfg, paths; simpl.
  rewrite app_nil_r.
  repeat split; try assumption; try reflexivity.
  - intros N; rewrite N in L; discriminate.
  - eapply Forall_impl; [|exact Hnames]; intros n (A & B & _); auto.
Qed.

Lemma Forall2_length_eq {A B : Type} (R : A -> B -> Prop) (l : list A) (m : list B) :
  Forall2 R l m -> length l = length m.
Proof. induction 1; simpl; congruence. Qed.

Lemma Forall2_lookup_in (l : list (string * string)) (ns ps : list string) :
  Forall2 (fun n p => lookupRepo l n = Some p) ns ps ->
  forall n, In n ns -> lookupRepo l n <> None.
Proof.
  induction 1 as [|x p xs ps Hx _ IH]; intros n Hin; [destruct Hin|].
  destruct Hin as [<-|Hin]; [rewrite Hx; discriminate|apply IH, Hin].
Qed.

(** X10.  What a loaded application guarantees.  After a successful
    [loadApp] there is at least one repository; the names are distinct, not
    empty, free of slashes and of white space around them; the map [repos]
    has exactly the names of [repoNames] as keys; and the default
    repository is one of them. *)
Theorem loaded_app_is_consistent (a : app) :
  value (loadApp world exec) = Ok a ->
  repoNames a <> []
  /\ In (defaultRepo a) (repoNames a)
  /\ NoDup (repoNames a)
  /\ (forall n, In n (repoNames a) <-> lookupRepo (repos a) n <> None)
  /\ Forall (fun n => n <> "" /\ Contains n "/" = false) (repoNames a)
  /\ Forall (fun n => strings.TrimSpace n = n) (repoNames a).
Proof.
  intros H; apply loadApp_ok in H.
  destruct H as (cfg & paths & _ & Hne & HF & Hrepos & Hnames & Hdef & _ & Hn & Hnd).
  rewrite Hdef, Hnames, Hrepos.
  pose proof (Forall2_length_eq _ _ _ HF) as Hlen.
  assert (length (map nameOf (Repos cfg)) = length paths) as Hlen'
    by (rewrite length_map; exact Hlen).
  repeat split.
  - intros N; apply map_eq_nil in N; contradiction.
  - destruct (Repos cfg); [contradiction Hne; reflexivity|left; reflexivity].
  - exact Hnd.
  - intros Hin.
    exact (Forall2_lookup_in _ _ _ (lookup_rev_combine _ _ Hnd Hlen') n Hin).
  - intros Hl.
    destruct (lookupRepo _ n) as [p|] eqn:E; [|contradiction Hl; reflexivity].
    apply lookupRepo_present in E.
    rewrite (keys_rev_combine _ _ Hlen') in E; apply in_rev in E; exact E.
  - eapply Forall_impl; [|exact Hn].
    intros n (A & B); auto.
  - rewrite Forall_forall; intros n Hin.
    apply in_map_iff in Hin; destruct Hin as (rc & <- & _).
    apply TrimSpace_idempotent.
Qed.

(** X11.  A loaded application is the configuration, checked.  After a
    successful [loadApp] the names are the trimmed names of the
    configuration in its order; each name is bound to the absolute form of
    its trimmed path, which was found to be a directory and a work tree;
    and the tool was run once per repository, in that order, for the check
    of the work tree. *)
Theorem loaded_app_matches_config (a : app) :
  value (loadApp world exec) = Ok a ->
  exists cfg paths,
    loadConfig world (configPath world) = Ok cfg
    /\ repoNames a = map nameOf (Repos cfg)
    /\ Forall2 (fun repo absPath =>
                  lookupRepo (repos a) (nameOf repo) = Some absPath
                  /\ accepted world exec repo absPath)
         (Repos cfg) paths
    /\ calls (loadApp world exec) = map checkOf paths.
Proof.
  intros H; apply loadApp_ok in H.
  destruct H as (cfg & paths & Hcfg & _ & HF & Hrepos & Hnames & _ & Hcalls & _ & Hnd).
  exists cfg, paths; repeat split; try assumption.
  rewrite Hrepos.
  assert (length (map nameOf (Repos cfg)) = length paths) as Hlen
    by (rewrite length_map; exact (Forall2_length_eq _ _ _ HF)).
  pose proof (lookup_rev_combine _ _ Hnd Hlen) as L.
  revert L; generalize (rev (combine (map nameOf (Repos cfg)) paths)).
  intros l; clear - HF.
  induction HF as [|repo p todo ps Hacc _ IH]; simpl; intros L; [constructor|].
  inversion L; subst; constructor; [split; assumption|apply IH; assumption].
Qed.

End Startup.

Section StartupWitnesses.

Import git main startup.

Lemma loaded_app_is_consistent_witness :
  repoNames SampleApp.loaded <> []
  /\ In (defaultRepo SampleApp.loaded) (repoNames SampleApp.loaded)
  /\ NoDup (repoNames SampleApp.loaded)
  /\ (forall n, In n (repoNames SampleApp.loaded)
                <-> lookupRepo (repos SampleApp.loaded) n <> None)
  /\ Forall (fun n => n <> "" /\ Contains n "/" = false) (repoNames SampleApp.loaded)
  /\ Forall (fun n => strings.TrimSpace n = n) (repoNames SampleApp.loaded).
Proof.
  apply (loaded_app_is_consistent SampleApp.world SampleApp.workTree SampleApp.loaded).
  vm_compute; reflexivity.
Defined.

Lemma loaded_app_matches_config_witness :
  exists cfg paths,
    loadConfig SampleApp.world (configPath SampleApp.world) = Ok cfg
    /\ repoNames SampleApp.loaded = map nameOf (Repos cfg)
    /\ Forall2 (fun repo absPath =>
                  lookupRepo (repos SampleApp.loaded) (nameOf repo) = Some absPath
                  /\ accepted SampleApp.world SampleApp.workTree repo absPath)
         (Repos cfg) paths
    /\ calls (loadApp SampleApp.world SampleApp.workTree) = map checkOf paths.
Proof.
  apply (loaded_app_matches_config SampleApp.world SampleApp.workTree SampleApp.loaded).
  vm_compute; reflexivity.
Defined.

End StartupWitnesses.

(** ** The handlers *)

Section Handlers.

Import git main pages.

Variable exec : string -> list string -> ExecResult.

(** X12.  A repository that is not configured is not found: each handler
    that takes a repository name answers 404 for a name outside the map,
    and does so without running the tool. *)
Theorem unknown_repository_not_found (a : app) (repoName rev hash path : string) :
  lookupRepo (repos a) repoName = None ->
  repoIndexHandler exec a repoName [] = (Other NotFound, [])
  /\ treeHandler exec a repoName rev path [] = (Other NotFound, [])
  /\ blobHandler exec a repoName rev path [] = (NotFound, [])
  /\ fileHistoryHandler exec a repoName rev path [] = (NotFound, [])
  /\ fileDiffHandler exec a repoName hash path [] = (NotFound, [])
  /\ commitsHandler exec a repoName rev [] = (Other NotFound, [])
  /\ commitHandler exec a repoName hash [] = (Other NotFound, []).
Proof.
  intros H.
  unfold repoIndexHandler, treeHandler, blobHandler, fileHistoryHandler,
    fileDiffHandler, commitsHandler, commitHandler.
  rewrite H; repeat split; reflexivity.
Qed.

(** X13.  A rejected path is not found: when [normalizeRepoRelativePath]
    rejects the path of a request, the blob, file history and file diff
    handlers answer 404 and do not run the tool. *)
Theorem rejected_path_not_found (a : app) (repoName repoPath rev hash path : string) :
  lookupRepo (repos a) repoName = Some repoPath ->
  snd (normalizeRepoRelativePath repoPath path) = false ->
  blobHandler exec a repoName rev path [] = (NotFound, [])
  /\ fileHistoryHandler exec a repoName rev path [] = (NotFound, [])
  /\ fileDiffHandler exec a repoName hash path [] = (NotFound, []).
Proof.
  intros H N.
  unfold blobHandler, fileHistoryHandler, fileDiffHandler; rewrite H.
  destruct (normalizeRepoRelativePath repoPath path) as [p ok]; simpl in N; subst ok.
  repeat split; reflexivity.
Qed.

(** X14.  The index of a repository sends the client on to a tree that has
    a revision.  For a configured repository the handler runs the tool
    once, to ask for the current branch, and calls [http.Redirect] with
    the URL [/repo/<name>/tree/<branch>/]: the branch is the name the tool
    gave when it gave one, and [HEAD] when the tool printed nothing or
    failed. *)
Theorem repository_index_redirect (a : app) (repoName repoPath : string) :
  lookupRepo (repos a) repoName = Some repoPath ->
  (forall branch,
      value (GetCurrentBranch exec repoPath) = Ok branch ->
      branch <> "" ->
      repoIndexHandler exec a repoName []
      = (CallRedirect ("/repo/" ++ repoName ++ "/tree/" ++ branch ++ "/")%string,
         [branchQuery repoPath]))
  /\ (value (GetCurrentBranch exec repoPath) = Ok ""
      \/ (exists err, value (GetCurrentBranch exec repoPath) = Err err) ->
      repoIndexHandler exec a repoName []
      = (CallRedirect ("/repo/" ++ repoName ++ "/tree/" ++ "HEAD" ++ "/")%string,
         [branchQuery repoPath])).
Proof.
  intros H; unfold repoIndexHandler, bind, value, GetCurrentBranch.
  rewrite H, !Command_run; simpl.
  split.
  - intros branch B N; rewrite B.
    apply String.eqb_neq in N; rewrite N; reflexivity.
  - intros [B|(err & B)]; rewrite B; reflexivity.
Qed.

(** X15.  The commit log is never asked for an empty revision.  With a
    revision in the request, the first invocation of the handler is
    [git log] of that revision.  Without one, the handler first asks for
    the current branch and then runs [git log] of the name the tool gave,
    or of [HEAD] when the tool printed nothing or failed.  No invocation
    of the handler is a [git log] of the empty revision. *)
Theorem commits_revision_never_empty (a : app) (repoName repoPath rev : string) :
  lookupRepo (repos a) repoName = Some repoPath ->
  (rev <> "" ->
   hd_error (calls (commitsHandler exec a repoName rev))
   = Some (repoPath, logArgs rev))
  /\ (forall branch,
         rev = "" ->
         value (GetCurrentBranch exec repoPath) = Ok branch ->
         branch <> "" ->
         firstn 2 (calls (commitsHandler exec a repoName rev))
         = [branchQuery repoPath; (repoPath, logArgs branch)])
  /\ (rev = "" ->
      value (GetCurrentBranch exec repoPath) = Ok ""
      \/ (exists err, value (GetCurrentBranch exec repoPath) = Err err) ->
      firstn 2 (calls (commitsHandler exec a repoName rev))
      = [branchQuery repoPath; (repoPath, logArgs "HEAD")])
  /\ Forall (fun c : Invocation =>
               forall r rest, snd c = ("log" :: r :: rest)%list -> r <> "")
            (calls (commitsHandler exec a repoName rev)).
Proof.
  intros H.
  assert (forall r log,
             exists rest,
               snd ((r0 <- GetLog exec repoPath r ;;
                     match r0 with
                     | Err err => ret (Other (InternalServerError err))
                     | Ok commits =>
                         base <- baseData exec a repoName repoPath r ;;
                         ret (CommitsPage base commits)
                     end) log)
               = (log ++ (repoPath, Output.logQuery r) :: rest)%list
               /\ (rest = []
                   \/ rest = [(repoPath, ["branch"; "--format=%(refname:short)"])]))
    as K.
  { intros r log; unfold bind; rewrite GetLog_run.
    destruct (Output.logOf _) as [commits|err].
    - match goal with
      | |- context [baseData ?e ?a ?n ?p ?rv ?l] =>
          destruct (baseData_run e a n p rv l) as (base & ->)
      end.
      eexists; simpl; rewrite <- app_assoc; split; [reflexivity|right; reflexivity].
    - eexists; simpl; split; [reflexivity|left; reflexivity]. }
  assert (forall r, exists r', Output.logQuery r = ("log" :: r' :: skipn 2 (logArgs r'))%list
                               /\ r' <> "") as Q.
  { intros r; unfold Output.logQuery.
    destruct (String.eqb r "") eqn:R.
    - exists "HEAD"; split; [reflexivity|discriminate].
    - exists r; apply String.eqb_neq in R; split; [reflexivity|exact R]. }
  unfold calls, value, commitsHandler, GetCurrentBranch.
  rewrite H.
  split; [|split; [|split]].
  - intros N; apply String.eqb_neq in N.
    unfold bind at 1; rewrite N; unfold ret at 1.
    destruct (K rev []) as (rest & E & _).
    etransitivity; [apply f_equal; exact E|].
    unfold Output.logQuery; rewrite N; reflexivity.
  - intros branch -> B N; simpl String.eqb; cbv iota.
    unfold bind at 1 2; rewrite Command_run.
    unfold value in B; rewrite Command_run in B; simpl in B; rewrite B.
    unfold ret at 1.
    destruct (K branch ([] ++ [(repoPath, ["rev-parse"; "--abbrev-ref"; "HEAD"])])%list)
      as (rest & E & _).
    etransitivity; [apply f_equal; exact E|].
    apply String.eqb_neq in N.
    unfold Output.logQuery; rewrite N; reflexivity.
  - intros -> B; simpl String.eqb; cbv iota.
    unfold bind at 1 2; rewrite Command_run.
    assert (match outcome (exec repoPath ["rev-parse"; "--abbrev-ref"; "HEAD"]) with
            | Ok rev => rev
            | Err _ => ""
            end = "") as ->.
    { unfold value in B; rewrite Command_run in B; simpl in B.
      destruct B as [B|(err & B)]; rewrite B; reflexivity. }
    unfold ret at 1.
    destruct (K "" ([] ++ [(repoPath, ["rev-parse"; "--abbrev-ref"; "HEAD"])])%list)
      as (rest & E & _).
    etransitivity; [apply f_equal; exact E|].
    reflexivity.
  - assert (forall r log,
               Forall (fun c : Invocation =>
                         forall r0 rest0, snd c = ("log" :: r0 :: rest0)%list -> r0 <> "")
                      log ->
               Forall (fun c : Invocation =>
                         forall r0 rest0, snd c = ("log" :: r0 :: rest0)%list -> r0 <> "")
                      (snd ((r0 <- GetLog exec repoPath r ;;
                             match r0 with
                             | Err err => ret (Other (InternalServerError err))
                             | Ok commits =>
                                 base <- baseData exec a repoName repoPath r ;;
                                 ret (CommitsPage base commits)
                             end) log))) as F.
    { intros r log Hlog.
      destruct (K r log) as (rest & -> & Hrest).
      destruct (Q r) as (r' & -> & Hr').
      apply Forall_app; split; [exact Hlog|].
      constructor.
      - intros r0 rest0; simpl; intros [= <- _]; exact Hr'.
      - destruct Hrest as [->| ->]; [constructor|].
        constructor; [|constructor].
        intros r0 rest0; simpl; discriminate. }
    destruct (String.eqb rev "") eqn:E.
    + unfold bind at 1 2; rewrite Command_run; unfold ret at 1.
      apply F; simpl.
      constructor; [|constructor].
      intros r0 rest0; simpl; discriminate.
    + unfold bind at 1; unfold ret at 1.
      apply F; constructor.
Qed.

(** X16.  The tree handler checks no path: for a configured repository it
    never answers 404, and its first invocation is [git ls-tree] with the
    directory argument made from the path of the request as it came. *)
Theorem tree_handler_lists_any_path (a : app) (repoName repoPath rev path : string) :
  lookupRepo (repos a) repoName = Some repoPath ->
  value (treeHandler exec a repoName rev path) <> Other NotFound
  /\ hd_error (calls (treeHandler exec a repoName rev path))
     = Some (repoPath,
             ["ls-tree"; if String.eqb rev "" then "HEAD" else rev;
              git_tree.treeArg path]).
Proof.
  intros H; unfold value, calls, treeHandler, bind; rewrite H, ListTree_run.
  destruct (outcome _) as [out|err]; [|split; [discriminate|reflexivity]].
  destruct (String.eqb out "");
    match goal with
    | |- context [baseData ?e ?a ?n ?p ?rv ?l] =>
        destruct (baseData_run e a n p rv l) as (base & ->)
    end; split; (discriminate || reflexivity).
Qed.

End Handlers.

Section HandlerWitnesses.

Import git main pages.

Lemma tree_listing_argument_witness :
  git_tree.HasSuffix (git_tree.treeArg "/a/b") "/" = true.
Proof.
  apply (proj2 (proj2 (proj2
           (tree_listing_argument Scenario.scenarioGit Scenario.repo "" "/a/b"))));
    discriminate.
Defined.

Lemma unknown_repository_not_found_witness :
  repoIndexHandler SampleApp.workTree SampleApp.loaded "app3" [] = (Other NotFound, [])
  /\ treeHandler SampleApp.workTree SampleApp.loaded "app3" "main" "a" []
     = (Other NotFound, [])
  /\ blobHandler SampleApp.workTree SampleApp.loaded "app3" "main" "a" []
     = (NotFound, [])
  /\ fileHistoryHandler SampleApp.workTree SampleApp.loaded "app3" "main" "a" []
     = (NotFound, [])
  /\ fileDiffHandler SampleApp.workTree SampleApp.loaded "app3" Scenario.H2 "a" []
     = (NotFound, [])
  /\ commitsHandler SampleApp.workTree SampleApp.loaded "app3" "main" []
     = (Other NotFound, [])
  /\ commitHandler SampleApp.workTree SampleApp.loaded "app3" Scenario.H2 []
     = (Other NotFound, []).
Proof.
  apply (unknown_repository_not_found SampleApp.workTree SampleApp.loaded "app3"
           "main" Scenario.H2 "a").
  reflexivity.
Defined.

Lemma rejected_path_not_found_witness :
  blobHandler SampleApp.workTree SampleApp.loaded "app1" "main" "a/../../b" []
  = (NotFound, [])
  /\ fileHistoryHandler SampleApp.workTree SampleApp.loaded "app1" "main" "a/../../b" []
     = (NotFound, [])
  /\ fileDiffHandler SampleApp.workTree SampleApp.loaded "app1" Scenario.H2
       "a/../../b" []
     = (NotFound, []).
Proof.
  apply (rejected_path_not_found SampleApp.workTree SampleApp.loaded "app1"
           "/repos/app1" "main" Scenario.H2 "a/../../b").
  - reflexivity.
  - vm_compute; reflexivity.
Defined.

Lemma repository_index_redirect_witness :
  repoIndexHandler Cases.onMain SampleApp.loaded "app1" []
  = (CallRedirect ("/repo/" ++ "app1" ++ "/tree/" ++ "main" ++ "/")%string,
     [branchQuery "/repos/app1"])
  /\ repoIndexHandler Scenario.scenarioGit SampleApp.loaded "app1" []
     = (CallRedirect ("/repo/" ++ "app1" ++ "/tree/" ++ "HEAD" ++ "/")%string,
        [branchQuery "/repos/app1"]).
Proof.
  split.
  - apply (proj1 (repository_index_redirect Cases.onMain SampleApp.loaded "app1"
                    "/repos/app1" eq_refl) "main").
    + vm_compute; reflexivity.
    + discriminate.
  - apply (proj2 (repository_index_redirect Scenario.scenarioGit SampleApp.loaded
                    "app1" "/repos/app1" eq_refl)).
    right; eexists; vm_compute; reflexivity.
Defined.

Lemma commits_revision_never_empty_witness :
  hd_error (calls (commitsHandler Cases.onMain SampleApp.loaded "app1" "v1.0"))
  = Some ("/repos/app1", logArgs "v1.0")
  /\ firstn 2 (calls (commitsHandler Cases.onMain SampleApp.loaded "app1" ""))
     = [branchQuery "/repos/app1"; ("/repos/app1", logArgs "main")]
  /\ firstn 2 (calls (commitsHandler Scenario.scenarioGit SampleApp.loaded "app1" ""))
     = [branchQuery "/repos/app1"; ("/repos/app1", logArgs "HEAD")]
  /\ Forall (fun c : Invocation =>
               forall r rest, snd c = ("log" :: r :: rest)%list -> r <> "")
            (calls (commitsHandler Scenario.scenarioGit SampleApp.loaded "app1" "")).
Proof.
  split; [|split; [|split]].
  - apply (proj1 (commits_revision_never_empty Cases.onMain SampleApp.loaded "app1"
                    "/repos/app1" "v1.0" eq_refl)).
    discriminate.
  - apply (proj1 (proj2 (commits_revision_never_empty Cases.onMain SampleApp.loaded
                           "app1" "/repos/app1" "" eq_refl)) "main").
    + reflexivity.
    + vm_compute; reflexivity.
    + discriminate.
  - apply (proj1 (proj2 (proj2 (commits_revision_never_empty Scenario.scenarioGit
                                  SampleApp.loaded "app1" "/repos/app1" "" eq_refl)))).
    + reflexivity.
    + right; eexists; vm_compute; reflexivity.
  - apply (proj2 (proj2 (proj2 (commits_revision_never_empty Scenario.scenarioGit
                                  SampleApp.loaded "app1" "/repos/app1" "" eq_refl)))).
Defined.

Lemma tree_handler_lists_any_path_witness :
  value (treeHandler Scenario.scenarioGit SampleApp.loaded "app1" "" "..")
  <> Other NotFound
  /\ hd_error (calls (treeHandler Scenario.scenarioGit SampleApp.loaded "app1" "" ".."))
     = Some ("/repos/app1",
             ["ls-tree"; if String.eqb "" "" then "HEAD" else "";
              git_tree.treeArg ".."]).
Proof.
  apply (tree_handler_lists_any_path Scenario.scenarioGit SampleApp.loaded "app1"
           "/repos/app1" "" "..").
  reflexivity.
Defined.

End HandlerWitnesses.

(** ** Handlers and what they compose *)

Section Compositions.

Import git main startup pages.

Lemma Join_head (c : ascii) (piece : string) (pieces : list string) (sep : string) :
  strings.Join (String c piece :: pieces) sep
  = String c (strings.Join (piece :: pieces) sep).
Proof. destruct pieces; reflexivity. Qed.

Lemma Join_Split (s : string) (sep : ascii) :
  strings.Join (strings.Split s sep) (String sep "") = s.
Proof.
  induction s as [|c s IH]; [reflexivity|]; simpl.
  destruct (Ascii.eqb c sep) eqn:E.
  - apply Ascii.eqb_eq in E; subst c.
    destruct (strings.Split s sep) as [|piece pieces] eqn:S;
      [exfalso; exact (Split_nonempty _ _ S)|].
    change (strings.Join ("" :: piece :: pieces) (String sep ""))
      with (String sep (strings.Join (piece :: pieces) (String sep ""))).
    rewrite IH; reflexivity.
  - destruct (strings.Split s sep) as [|piece pieces] eqn:S;
      [exfalso; exact (Split_nonempty _ _ S)|].
    rewrite Join_head, IH; reflexivity.
Qed.

(** X18.  The lines of a blob page are the content: when the blob handler
    renders a page, its lines joined by newlines are the content that
    [GetFileContent] returned for the normalized path, and there is at
    least one line. *)
Theorem blob_lines_are_content (exec : string -> list string -> ExecResult)
  (a : app) (repoName rev path : string) (base : baseViewData)
  (shown : string) (lines : list string) :
  value (blobHandler exec a repoName rev path) = BlobPage base shown lines ->
  exists repoPath,
    lookupRepo (repos a) repoName = Some repoPath
    /\ normalizeRepoRelativePath repoPath path = (shown, true)
    /\ value (GetFileContent exec repoPath rev shown)
       = Ok (strings.Join lines (String NL ""))
    /\ lines <> [].
Proof.
  unfold value, blobHandler.
  destruct (lookupRepo (repos a) repoName) as [repoPath|]; [|discriminate].
  destruct (normalizeRepoRelativePath repoPath path) as [p [|]] eqn:N; [|discriminate].
  cbn [negb]; cbv beta iota; unfold bind, GetFileContent; rewrite !Command_run.
  destruct (outcome _) as [content|err] eqn:O; [|discriminate].
  match goal with
  | |- context [baseData ?e ?a ?n ?p ?rv ?l] =>
      destruct (baseData_run e a n p rv l) as (b & ->)
  end.
  unfold ret; cbn [fst]; intros [= <- <- <-].
  exists repoPath; split; [reflexivity|split; [exact N|split]].
  - rewrite Command_run; cbn [fst]; rewrite O, Join_Split; reflexivity.
  - apply Split_nonempty.
Qed.

Lemma blob_lines_are_content_witness :
  exists repoPath,
    lookupRepo (repos SampleApp.loaded) "app1" = Some repoPath
    /\ normalizeRepoRelativePath repoPath "/a/f.kt" = ("a/f.kt", true)
    /\ value (GetFileContent (Scenario.answer ["package a"; ""; "fun f() {}"])
                repoPath "HEAD" "a/f.kt")
       = Ok (strings.Join ["package a"; ""; "fun f() {}"] (String NL ""))
    /\ ["package a"; ""; "fun f() {}"] <> [].
Proof.
  apply (blob_lines_are_content (Scenario.answer ["package a"; ""; "fun f() {}"])
           SampleApp.loaded "app1" "HEAD" "/a/f.kt"
           {| main.Repo := "app1"; main.Repos := ["app1"; "app2"];
              main.Rev := "HEAD";
              main.Branches := ["package a"; ""; "fun f() {}"] |}).
  vm_compute; reflexivity.
Defined.

Lemma retryWithHistory_sound (exec : string -> list string -> ExecResult)
  (repoPath hash path diff : string) (history : list FileHistoryEntry)
  (log : list Invocation) :
  outcome (exec repoPath (Output.diffQuery hash path)) = Ok diff ->
  exists d p more,
    retryWithHistory exec repoPath hash path diff history log
    = ((d, p), (log ++ more)%list)
    /\ outcome (exec repoPath (Output.diffQuery hash p)) = Ok d
    /\ length more <= 1.
Proof.
  intros H; induction history as [|e history IH]; simpl.
  - exists diff, path, []; rewrite app_nil_r; auto.
  - destruct (String.eqb (git.Hash (git.Log e)) hash && negb (String.eqb (git.Path e) path));
      [|exact IH].
    unfold bind; rewrite GetCommitFileDiff_run.
    destruct (outcome (exec repoPath (Output.diffQuery hash (git.Path e))))
      as [retryDiff|err] eqn:R.
    + exists retryDiff, (git.Path e), [(repoPath, Output.diffQuery hash (git.Path e))]; auto.
    + exists diff, path, [(repoPath, Output.diffQuery hash (git.Path e))]; auto.
Qed.

(** X19.  The resolver answers with what the tool said, at a bounded cost.
    When the first diff request succeeds the resolver succeeds, and the
    diff it returns is the one the tool gives for the commit and the path
    it returns.  It fails only with the error of the first request.  It
    runs the tool at most three times, the first time for the diff of the
    path as given. *)
Theorem resolver_is_sound_and_bounded (exec : string -> list string -> ExecResult)
  (repoPath hash path : string) :
  (forall err,
      value (resolveDiffWithFallback exec repoPath hash path) = Err err
      <-> value (GetCommitFileDiff exec repoPath hash path) = Err err)
  /\ (forall d p,
         value (resolveDiffWithFallback exec repoPath hash path) = Ok (d, p) ->
         value (GetCommitFileDiff exec repoPath hash p) = Ok d)
  /\ hd_error (calls (resolveDiffWithFallback exec repoPath hash path))
     = Some (repoPath, ["show"; hash; "--"; strings.TrimPrefix path "/"])
  /\ length (calls (resolveDiffWithFallback exec repoPath hash path)) <= 3.
Proof.
  unfold value, calls; rewrite resolve_run, !GetCommitFileDiff_run; simpl.
  destruct (outcome (exec repoPath (Output.diffQuery hash path))) as [diff|e] eqn:O.
  - assert (forall (dp : string * string) (log : list Invocation) more,
               outcome (exec repoPath (Output.diffQuery hash (snd dp))) = Ok (fst dp) ->
               length more <= 2 ->
               (forall err, (@Ok (string * string) dp = Err err <-> Ok diff = Err err))
               /\ (forall d p, Ok dp = Ok (d, p) ->
                               fst (GetCommitFileDiff exec repoPath hash p []) = Ok d)
               /\ hd_error ((repoPath, Output.diffQuery hash path) :: more)
                  = Some (repoPath, ["show"; hash; "--"; strings.TrimPrefix path "/"])
               /\ length ((repoPath, Output.diffQuery hash path) :: more) <= 3) as K.
    { intros [d0 p0] log more Hs Hl; simpl in Hs.
      split; [intros err; split; discriminate|].
      split; [intros d p [= <- <-]; rewrite GetCommitFileDiff_run; exact Hs|].
      split; [reflexivity|simpl; lia]. }
    destruct (String.eqb (strings.TrimSpace diff) "").
    + destruct (Output.historyOf path _) as [history|err].
      * match goal with
        | |- context [retryWithHistory ?e ?r ?h ?q ?d0 ?hs ?l] =>
            destruct (retryWithHistory_sound e r h q d0 hs l O)
              as (d & p & more & -> & Hs & Hl)
        end.
        apply (K (d, p) [] ((repoPath, Output.historyQuery "HEAD" path) :: more));
          [exact Hs|unfold Invocation in *; simpl; lia].
      * apply (K (diff, path) [] [(repoPath, Output.historyQuery "HEAD" path)]);
          [exact O|simpl; lia].
    + apply (K (diff, path) [] []); [exact O|simpl; lia].
  - split; [intros err; simpl; split; intros [= ->]; reflexivity|].
    split; [discriminate|].
    split; [reflexivity|simpl; lia].
Qed.

End Compositions.

Section MoreCompositions.

Import git main pages.

Lemma resolver_is_sound_and_bounded_witness :
  value (GetCommitFileDiff Scenario.scenarioGit Scenario.repo Scenario.H2
           Scenario.oldPath)
  = Ok (strings.TrimSpace Scenario.diffH2).
Proof.
  apply (proj1 (proj2 (resolver_is_sound_and_bounded Scenario.scenarioGit
                         Scenario.repo Scenario.H2 Scenario.newPath))).
  vm_compute; reflexivity.
Defined.

Variable exec : string -> list string -> ExecResult.

Lemma first_call_kept (first : Invocation) (r : string * string)
  (a : app) (repoName repoPath hash : string) (log : list Invocation) :
  hd_error log = Some first ->
  hd_error
    (snd ((let (diff, resolvedPath) := r in
           fun log =>
             let (b, log') := GetCurrentBranch exec repoPath log in
             let (base, log'') :=
               baseData exec a repoName repoPath
                 match b with Ok rev => rev | Err _ => "" end log' in
             ret (CommitPage base hash diff resolvedPath) log'')
            log))
  = Some first.
Proof.
  destruct r as [diff resolvedPath]; intros Hlog.
  unfold GetCurrentBranch; rewrite Command_run.
  match goal with
  | |- context [baseData ?e ?a ?n ?p ?rev ?l] =>
      destruct (baseData_run e a n p rev l) as (base & ->)
  end.
  destruct log as [|x log]; [discriminate|exact Hlog].
Qed.

(** X20.  The tool sees the normalized path, not the request: for a
    configured repository and a path that [normalizeRepoRelativePath]
    accepts, the first invocation of the blob, file history and file diff
    handlers names the normalized path. *)
Theorem handlers_use_normalized_path (a : app)
  (repoName repoPath rev hash path normalizedPath : string) :
  lookupRepo (repos a) repoName = Some repoPath ->
  normalizeRepoRelativePath repoPath path = (normalizedPath, true) ->
  hd_error (calls (blobHandler exec a repoName rev path))
  = Some (repoPath,
          ["show"; ((if String.eqb rev "" then "HEAD" else rev)
                    ++ ":" ++ normalizedPath)%string])
  /\ hd_error (calls (fileHistoryHandler exec a repoName rev path))
     = Some (repoPath, Output.historyQuery rev normalizedPath)
  /\ hd_error (calls (fileDiffHandler exec a repoName hash path))
     = Some (repoPath, Output.diffQuery hash normalizedPath).
Proof.
  intros L N; unfold calls, blobHandler, fileHistoryHandler, fileDiffHandler.
  rewrite L, N; cbn [negb].
  split; [|split].
  - unfold bind, GetFileContent; rewrite Command_run.
    destruct (outcome _) as [content|err]; [|reflexivity].
    match goal with
    | |- context [baseData ?e ?a ?n ?p ?rv ?l] =>
        destruct (baseData_run e a n p rv l) as (base & ->)
    end.
    reflexivity.
  - unfold bind; rewrite GetFileHistory_run.
    destruct (Output.historyOf _ _) as [commits|err]; [|reflexivity].
    match goal with
    | |- context [baseData ?e ?a ?n ?p ?rv ?l] =>
        destruct (baseData_run e a n p rv l) as (base & ->)
    end.
    reflexivity.
  - unfold bind; rewrite resolve_run.
    destruct (outcome _) as [diff|err]; [|reflexivity].
    destruct (String.eqb (strings.TrimSpace diff) "").
    + destruct (Output.historyOf _ _) as [history|err].
      * match goal with
        | |- context [retryWithHistory ?e ?p ?h ?q ?d ?hs ?log] =>
            destruct (retryWithHistory_extends e p h q d hs log) as (dp & more & ->)
        end.
        apply first_call_kept; reflexivity.
      * apply (first_call_kept _ (diff, normalizedPath)); reflexivity.
    + apply (first_call_kept _ (diff, normalizedPath)); reflexivity.
Qed.

End MoreCompositions.

Section MoreWitnesses.

Import git main pages.

Lemma handlers_use_normalized_path_witness :
  hd_error (calls (blobHandler Scenario.scenarioGit SampleApp.loaded "app1" ""
                     " /a/./f.kt"))
  = Some ("/repos/app1",
          ["show"; ((if String.eqb "" "" then "HEAD" else "") ++ ":" ++ "a/f.kt")%string])
  /\ hd_error (calls (fileHistoryHandler Scenario.scenarioGit SampleApp.loaded "app1" ""
                        " /a/./f.kt"))
     = Some ("/repos/app1", Output.historyQuery "" "a/f.kt")
  /\ hd_error (calls (fileDiffHandler Scenario.scenarioGit SampleApp.loaded "app1"
                        Scenario.H2 " /a/./f.kt"))
     = Some ("/repos/app1", Output.diffQuery Scenario.H2 "a/f.kt").
Proof.
  apply (handlers_use_normalized_path Scenario.scenarioGit SampleApp.loaded "app1"
           "/repos/app1" "" Scenario.H2 " /a/./f.kt" "a/f.kt").
  - reflexivity.
  - vm_compute; reflexivity.
Defined.

End MoreWitnesses.

Section TreeEntries.

Import Output git git_tree.

Lemma emit_nonempty (cur : list ascii) (rest : list string) :
  Forall (fun f => f <> "") rest -> Forall (fun f => f <> "") (emit cur rest).
Proof.
  intros H; destruct cur as [|c cur]; simpl; [exact H|].
  constructor; [|exact H].
  destruct (rev cur ++ [c])%list as [|x l] eqn:E; [|discriminate].
  apply app_eq_nil in E; destruct E; discriminate.
Qed.

Lemma fieldsFrom_nonempty (n : nat) :
  forall s cur, String.length s <= n -> Forall (fun f => f <> "") (fieldsFrom s cur).
Proof.
  induction n as [|n IH]; intros s cur Hn.
  - destruct s; [apply emit_nonempty; constructor|simpl in Hn; lia].
  - destruct s as [|c1 r1]; [apply emit_nonempty; constructor|].
    simpl in Hn; simpl fieldsFrom.
    destruct (strings.asciiSpace c1); [apply emit_nonempty, IH; lia|].
    destruct r1 as [|c2 r2]; [apply IH; simpl; lia|].
    simpl in Hn.
    destruct (strings.space2 c1 c2); [apply emit_nonempty, IH; lia|].
    destruct r2 as [|c3 r3]; [apply IH; simpl; lia|].
    simpl in Hn.
    destruct (strings.space3 c1 c2 c3); [apply emit_nonempty, IH; lia|].
    apply IH; simpl; lia.
Qed.

Lemma Join_nonempty (f : string) (fs : list string) (sep : string) :
  f <> "" -> strings.Join (f :: fs) sep <> "".
Proof.
  intros H; destruct f as [|c f]; [contradiction H; reflexivity|].
  destruct fs; simpl; discriminate.
Qed.

Lemma treeStep_entries (path : string) (acc : list TreeEntry) (line : string) :
  let good e :=
    Mode e <> "" /\ Type_ e <> "" /\ Hash e <> "" /\ Path e <> ""
    /\ Name e = strings.TrimPrefix (Path e) path in
  Forall good acc -> Forall good (treeStep path acc line).
Proof.
  intros good Hacc; unfold treeStep.
  pose proof (fieldsFrom_nonempty (String.length line) line [] (le_n _)) as F.
  fold (Fields line) in F.
  destruct (Fields line) as [|f0 [|f1 [|f2 [|f3 fs]]]]; simpl; try exact Hacc.
  apply Forall_app; split; [exact Hacc|].
  inversion F as [|? ? N0 F1]; inversion F1 as [|? ? N1 F2];
    inversion F2 as [|? ? N2 F3]; inversion F3 as [|? ? N3 _]; subst.
  repeat constructor; simpl; try assumption.
  exact (Join_nonempty f3 fs " " N3).
Qed.

(** X21.  No entry of a listing is hollow: whatever the tool prints, every
    entry [ListTree] returns has a mode, a type, a hash and a path that are
    not empty, and its name is its path without the listed directory in
    front. *)
Theorem tree_entries_are_filled
  (exec : string -> list string -> ExecResult) (repoPath rev path : string)
  (es : list TreeEntry) :
  value (ListTree exec repoPath rev path) = Ok es ->
  Forall (fun e =>
            Mode e <> "" /\ Type_ e <> "" /\ Hash e <> "" /\ Path e <> ""
            /\ Name e = strings.TrimPrefix (Path e) (treePrefix path)) es.
Proof.
  unfold value; rewrite ListTree_run; simpl.
  destruct (outcome _) as [out|err]; [|discriminate].
  destruct (String.eqb out ""); intros [= <-]; [constructor|].
  generalize (strings.Split out NL); intros lines.
  assert (Forall (fun e =>
            Mode e <> "" /\ Type_ e <> "" /\ Hash e <> "" /\ Path e <> ""
            /\ Name e = strings.TrimPrefix (Path e) (treePrefix path))
            (@nil TreeEntry)) as H0 by constructor.
  revert H0; generalize (@nil TreeEntry).
  induction lines as [|l lines IH]; intros acc Hacc; [exact Hacc|].
  apply IH, (treeStep_entries (treePrefix path) acc l), Hacc.
Qed.

Lemma tree_entries_are_filled_witness :
  Forall (fun e =>
            Mode e <> "" /\ Type_ e <> "" /\ Hash e <> "" /\ Path e <> ""
            /\ Name e = strings.TrimPrefix (Path e) (treePrefix "/a"))
    (map (entryOfItem "/a") Samples.items).
Proof.
  apply (tree_entries_are_filled (Scenario.answer (map lineOf Samples.items))
           Scenario.repo "" "/a").
  vm_compute; reflexivity.
Defined.

End TreeEntries.

(** ** Records the parsers do not read *)

Section Unread.

Import git Output Records.

Lemma parse_records (p : string) (lines : list string) :
  parseFileHistory p lines = entriesOf p (records lines).
Proof. exact (proj1 (run_records lines) [] p). Qed.

Lemma run_idle_section (es : list FileHistoryEntry) (cp : string)
  (section : list string) :
  Forall (fun l => isMarker l = false) section ->
  runFrom (idle es cp) section = idle es cp.
Proof.
  induction 1 as [|l section M _ IH]; [reflexivity|].
  change (runFrom ?st (l :: section)) with (runFrom (step st l) section).
  rewrite (step_idle (idle es cp) l M eq_refl); exact IH.
Qed.

Lemma skip_record (st : HistoryState) (bad : string) (section rest : list string) :
  shaped st ->
  isMarker bad = true ->
  markerOf bad = None ->
  Forall (fun l => isMarker l = false) section ->
  startsRecord rest ->
  flush (runFrom st (bad :: section ++ rest)) = flush (runFrom st rest).
Proof.
  intros Hst M E Hsec Hrest.
  change (runFrom ?s (bad :: ?l)) with (runFrom (step s bad) l).
  rewrite (step_bad_marker _ _ M E), runFrom_app.
  rewrite (flush_restart st rest Hrest).
  destruct (shaped_flush _ Hst) as (es & cp & ->).
  rewrite (run_idle_section _ _ _ Hsec); reflexivity.
Qed.


(** C7.  Malformed records are skipped, and the parsers go on.  A line of
    the commit log that does not have four fields is skipped: the result
    is the entries of the other lines, in their order.  In the file
    history, a status line of fewer than two fields is skipped: the result
    is that of the output without the line.  A marker line that does not
    have four fields is skipped with its record: it yields no entry, it
    ends the record before it, and the status lines that follow it up to
    the next marker are not read, so the result is that of the output
    without the marker and those lines.  The results are stated with the
    entries of the lines ([logEntryOf]) and of the records ([entriesOf]):
    every well-formed line or record after the malformed one yields its
    entry, and the parser returns a sequence, not an error. *)
Theorem malformed_lines_skipped :
  (forall (exec : string -> list string -> ExecResult) (repoPath rev out : string)
          (before : list string) (bad : string) (after : list string),
      outcome (exec repoPath (logQuery rev)) = Ok out ->
      strings.Split out NL = (before ++ bad :: after)%list ->
      length (strings.Split bad PIPE) <> 4 ->
      value (GetLog exec repoPath rev)
      = Ok (flat_map (fun l => optionList (logEntryOf l)) before
            ++ flat_map (fun l => optionList (logEntryOf l)) after)%list)
  /\ (forall (exec : string -> list string -> ExecResult)
             (repoPath rev path out : string)
             (before : list string) (bad : string) (after : list string),
         outcome (exec repoPath (historyQuery rev path)) = Ok out ->
         strings.Split out NL = (before ++ bad :: after)%list ->
         isMarker bad = false ->
         length (strings.Split bad TAB) < 2 ->
         value (GetFileHistory exec repoPath rev path)
         = Ok (entriesOf (strings.TrimPrefix path "/") (records (before ++ after))))
  /\ (forall (exec : string -> list string -> ExecResult)
             (repoPath rev path out : string)
             (before : list string) (bad : string) (section rest : list string),
         outcome (exec repoPath (historyQuery rev path)) = Ok out ->
         strings.Split out NL = (before ++ bad :: section ++ rest)%list ->
         isMarker bad = true ->
         length (strings.Split (strings.TrimPrefix bad "__GB__") PIPE) <> 4 ->
         Forall (fun l => isMarker l = false) section ->
         startsRecord rest ->
         value (GetFileHistory exec repoPath rev path)
         = Ok (entriesOf (strings.TrimPrefix path "/") (records (before ++ rest)))).
Proof.
  split; [|split].
  - intros exec repoPath rev out before bad after Hout Hsplit Hbad.
    unfold value; rewrite GetLog_run, Hout; simpl.
    destruct (String.eqb out "") eqn:O.
    + apply String.eqb_eq in O; subst out; simpl in Hsplit.
      destruct before as [|? [|? ?]]; try discriminate.
      injection Hsplit as _ <-; reflexivity.
    + rewrite Hsplit, parseLog_flat_map, flat_map_app; simpl.
      rewrite (logEntryOf_malformed _ Hbad); reflexivity.
  - intros exec repoPath rev path out before bad after Hout Hsplit Hmark Hbad.
    rewrite history_as_records, Hout, Hsplit; f_equal.
    rewrite <- !parse_records.
    unfold parseFileHistory; rewrite !runFrom_app.
    change (runFrom ?st (bad :: after)) with (runFrom (step st bad) after).
    rewrite (step_short_status _ _ Hmark Hbad); reflexivity.
  - intros exec repoPath rev path out before bad section rest
           Hout Hsplit Hmark Hbad Hsec Hrest.
    rewrite history_as_records, Hout, Hsplit; f_equal.
    rewrite <- !parse_records.
    unfold parseFileHistory; rewrite !runFrom_app.
    apply f_equal, skip_record; try assumption.
    + apply shaped_runFrom, (shaped_idle [] (strings.TrimPrefix path "/")).
    + apply markerOf_malformed, Hbad.
Qed.

Lemma malformed_lines_skipped_witness :
  value (GetLog (Scenario.answer Scenario.brokenLog) Scenario.repo "")
  = Ok (flat_map (fun l => optionList (logEntryOf l)) (firstn 1 Scenario.brokenLog)
        ++ flat_map (fun l => optionList (logEntryOf l))
             (skipn 2 Scenario.brokenLog))%list
  /\ value (GetFileHistory (Scenario.answer Scenario.brokenStatusHistory)
              Scenario.repo "" Scenario.newPath)
     = Ok (entriesOf (strings.TrimPrefix Scenario.newPath "/")
             (records (firstn 1 Scenario.brokenStatusHistory
                       ++ skipn 2 Scenario.brokenStatusHistory)))
  /\ value (GetFileHistory (Scenario.answer Scenario.brokenMarkerHistory)
              Scenario.repo "" Scenario.newPath)
     = Ok (entriesOf (strings.TrimPrefix Scenario.newPath "/")
             (records (firstn 3 Scenario.brokenMarkerHistory
                       ++ skipn 6 Scenario.brokenMarkerHistory))).
Proof.
  split; [|split].
  - apply (proj1 malformed_lines_skipped (Scenario.answer Scenario.brokenLog)
             Scenario.repo ""
             (strings.TrimSpace
                (Scenario.line (strings.Join Scenario.brokenLog (String NL ""))))
             (firstn 1 Scenario.brokenLog) (nth 1 Scenario.brokenLog "")
             (skipn 2 Scenario.brokenLog)).
    + vm_compute; reflexivity.
    + vm_compute; reflexivity.
    + vm_compute; discriminate.
  - apply (proj1 (proj2 malformed_lines_skipped)
             (Scenario.answer Scenario.brokenStatusHistory) Scenario.repo ""
             Scenario.newPath
             (strings.TrimSpace
                (Scenario.line
                   (strings.Join Scenario.brokenStatusHistory (String NL ""))))
             (firstn 1 Scenario.brokenStatusHistory)
             (nth 1 Scenario.brokenStatusHistory "")
             (skipn 2 Scenario.brokenStatusHistory)).
    + vm_compute; reflexivity.
    + vm_compute; reflexivity.
    + vm_compute; reflexivity.
    + vm_compute; lia.
  - apply (proj2 (proj2 malformed_lines_skipped)
             (Scenario.answer Scenario.brokenMarkerHistory) Scenario.repo ""
             Scenario.newPath
             (strings.TrimSpace
                (Scenario.line
                   (strings.Join Scenario.brokenMarkerHistory (String NL ""))))
             (firstn 3 Scenario.brokenMarkerHistory)
             (nth 3 Scenario.brokenMarkerHistory "")
             (firstn 2 (skipn 4 Scenario.brokenMarkerHistory))
             (skipn 6 Scenario.brokenMarkerHistory)).
    + vm_compute; reflexivity.
    + vm_compute; reflexivity.
    + vm_compute; reflexivity.
    + vm_compute; discriminate.
    + repeat constructor.
    + vm_compute; reflexivity.
Defined.

(** C7, where the claim stops.  A malformed marker line is not skipped the
    way a line that is not there is.  In this history of the new name the
    move is the second commit, and its subject [move a|b] gives the marker
    five fields.  The code ends the record of the newest commit at that
    marker and does not read the rename line after it: the oldest commit
    is recorded under the new name.  Without the marker line the rename
    line belongs to the record of the newest commit, and the oldest commit
    is recorded under the old name. *)
Lemma malformed_lines_skipped_counterexample :
  isMarker (nth 3 Cases.lostMove "") = true
  /\ length (strings.Split (strings.TrimPrefix (nth 3 Cases.lostMove "") "__GB__") PIPE)
     = 5
  /\ value (GetFileHistory (Scenario.answer Cases.lostMove) Scenario.repo "HEAD"
              Scenario.newPath)
     = Ok [Cases.e3 Scenario.newPath; Cases.e1 Scenario.newPath]
  /\ value (GetFileHistory
              (Scenario.answer (firstn 3 Cases.lostMove ++ skipn 4 Cases.lostMove))
              Scenario.repo "HEAD" Scenario.newPath)
     = Ok [Cases.e3 Scenario.newPath; Cases.e1 Scenario.oldPath]
  /\ value (GetFileHistory (Scenario.answer Cases.lostMove) Scenario.repo "HEAD"
              Scenario.newPath)
     <> value (GetFileHistory
                 (Scenario.answer (firstn 3 Cases.lostMove ++ skipn 4 Cases.lostMove))
                 Scenario.repo "HEAD" Scenario.newPath).
Proof.
  split; [vm_compute; reflexivity|].
  split; [vm_compute; reflexivity|].
  split; [vm_compute; reflexivity|].
  split; [vm_compute; reflexivity|].
  vm_compute; discriminate.
Qed.

End Unread.
